(** * PPC Prophet MCP server: profile resolution, working context, dispatch

    A shallow embedding of [src/index.ts] and [src/api-client.ts] (with the
    sibling handlers of [src/tools/reports.ts]) and the properties of the
    profile-context protocol proved over it.

    Conventions of the embedding.
    - A JavaScript string is the list of its UTF-16 code units ([jsstring]).
    - The numbers the core handles (profile ordinals, minute estimates) are
      integers and are modelled in [Z]; [Number_toString] and [parseInt] are
      exact on them, as the JavaScript ones are on the safe integers.
    - Effects are threaded through a [World]: the context file, the remote
      service (an oracle over the history of requests), the log and the clock.
      A computation either returns or throws, as a JavaScript one does. *)

From Stdlib Require Import ZArith NArith List String Ascii Bool Lia.
Import ListNotations.

#[local] Set Warnings "-register-all".


Local Open Scope N_scope.

(* ------------------------------------------------------------------ *)
(** ** JavaScript strings and integers *)

Definition codeunit := N.
Definition jsstring := list codeunit.

(** The code units of an ASCII literal of the source. *)
Definition js (s : string) : jsstring :=
  map N_of_ascii (list_ascii_of_string s).

Fixpoint jsstring_eqb (a b : jsstring) : bool :=
  match a, b with
  | [], [] => true
  | x :: a', y :: b' => (x =? y) && jsstring_eqb a' b'
  | _, _ => false
  end.

(** [Number.prototype.toString] on an integer: decimal digits, most
    significant first, no leading zero. *)
Fixpoint digits_aux (fuel : nat) (n : N) : jsstring :=
  match fuel with
  | O => []
  | S f => if n <? 10 then [48 + n]
           else digits_aux f (n / 10) ++ [48 + n mod 10]
  end.

Definition N_digits (n : N) : jsstring :=
  digits_aux (S (N.to_nat (N.log2 n))) n.

Definition Number_toString (z : Z) : jsstring :=
  if (z <? 0)%Z then 45 :: N_digits (Z.abs_N z) else N_digits (Z.abs_N z).

Definition is_digit (c : codeunit) : bool := (48 <=? c) && (c <=? 57).

(** Reads the longest prefix of decimal digits, accumulating its value. *)
Fixpoint parse_digits (acc : N) (s : jsstring) : N * jsstring :=
  match s with
  | c :: t => if is_digit c then parse_digits (10 * acc + (c - 48)) t
              else (acc, s)
  | [] => (acc, [])
  end.

(** The value of a digit string grows by one digit. *)
Definition digit_step (a : N) (c : codeunit) : N := 10 * a + (c - 48).

(** [StrWhiteSpaceChar] of ECMAScript: white space and line terminators. *)
Definition is_js_space (c : codeunit) : bool :=
  (c =? 9) || (c =? 10) || (c =? 11) || (c =? 12) || (c =? 13) || (c =? 32)
  || (c =? 160) || (c =? 5760) || ((8192 <=? c) && (c <=? 8202))
  || (c =? 8232) || (c =? 8233) || (c =? 8239) || (c =? 8287)
  || (c =? 12288) || (c =? 65279).

Fixpoint trim_start (s : jsstring) : jsstring :=
  match s with
  | c :: t => if is_js_space c then trim_start t else s
  | [] => []
  end.

(** [parseInt(s, 10)]; [None] is NaN. *)
Definition parseInt (s : jsstring) : option Z :=
  let s1 := trim_start s in
  let '(neg, s2) :=
    match s1 with
    | 45 :: t => (true, t)
    | 43 :: t => (false, t)
    | _ => (false, s1)
    end in
  match s2 with
  | c :: _ =>
      if is_digit c then
        let n := Z.of_N (fst (parse_digits 0 s2)) in
        Some (if neg then (- n)%Z else n)
      else None
  | [] => None
  end.

(** [s.replace(c, '')] with a string pattern: the first occurrence only. *)
Fixpoint remove_first (c : codeunit) (s : jsstring) : jsstring :=
  match s with
  | x :: t => if x =? c then t else x :: remove_first c t
  | [] => []
  end.


(** Texts holding a double quote are written with ['] for the double quote. *)
Definition subst_unit (a b : codeunit) (s : jsstring) : jsstring :=
  map (fun c => if c =? a then b else c) s.
Notation "s // a ~> b" := (subst_unit a b s) (at level 40, a at level 9, b at level 9).

(* ------------------------------------------------------------------ *)
(** ** JSON: the values, [JSON.stringify] and [JSON.parse] *)

(** A number is kept as the exact decimal [m * 10^e], in normal form; the
    JavaScript parser rounds it to a double, which changes nothing on the
    safe integers. *)
Inductive json :=
| JNull
| JBool (b : bool)
| JNumber (m e : Z)
| JString (s : jsstring)
| JArray (items : list json)
| JObject (props : list (jsstring * json)).

(** Property read on a parsed object: of two members with one key the later
    one wins. *)
Fixpoint get_prop (k : jsstring) (props : list (jsstring * json)) : option json :=
  match props with
  | [] => None
  | (k', v) :: t =>
      match get_prop k t with
      | Some v' => Some v'
      | None => if jsstring_eqb k' k then Some v else None
      end
  end.

(** *** QuoteJSONString *)

Definition hex_digit (n : N) : codeunit := if n <? 10 then 48 + n else 87 + n.

Definition unicode_escape (c : codeunit) : jsstring :=
  [92; 117; hex_digit (c / 4096 mod 16); hex_digit (c / 256 mod 16);
   hex_digit (c / 16 mod 16); hex_digit (c mod 16)].

Definition is_high_surrogate (c : codeunit) : bool := (55296 <=? c) && (c <=? 56319).
Definition is_low_surrogate (c : codeunit) : bool := (56320 <=? c) && (c <=? 57343).

Definition quote_unit (c : codeunit) : jsstring :=
  if c =? 8 then [92; 98]
  else if c =? 9 then [92; 116]
  else if c =? 10 then [92; 110]
  else if c =? 12 then [92; 102]
  else if c =? 13 then [92; 114]
  else if c =? 34 then [92; 34]
  else if c =? 92 then [92; 92]
  else if c <? 32 then unicode_escape c
  else [c].

(** A surrogate pair is copied; a lone surrogate is escaped (well-formed
    [JSON.stringify]). *)
Fixpoint quote_body (s : jsstring) : jsstring :=
  match s with
  | [] => []
  | c :: t =>
      if is_high_surrogate c then
        match t with
        | d :: t' =>
            if is_low_surrogate d then c :: d :: quote_body t'
            else unicode_escape c ++ quote_body t
        | [] => unicode_escape c
        end
      else if is_low_surrogate c then unicode_escape c ++ quote_body t
      else quote_unit c ++ quote_body t
  end.

Definition QuoteJSONString (s : jsstring) : jsstring :=
  34 :: quote_body s ++ [34].

(** *** [JSON.stringify(o, null, 2)] on an object of strings and integers *)

Inductive prim :=
| PString (s : jsstring)
| PNumber (z : Z).

Definition stringify_prim (p : prim) : jsstring :=
  match p with
  | PString s => QuoteJSONString s
  | PNumber z => Number_toString z
  end.

(** The JSON value of a member of such an object. *)
Definition prim_json (p : prim) : json :=
  match p with
  | PString s => JString s
  | PNumber z => JNumber z 0
  end.

Definition member_json (kv : jsstring * prim) : jsstring * json :=
  (fst kv, prim_json (snd kv)).

Definition stringify_member (kv : jsstring * prim) : jsstring :=
  QuoteJSONString (fst kv) ++ [58; 32] ++ stringify_prim (snd kv).

Fixpoint join (sep : jsstring) (l : list jsstring) : jsstring :=
  match l with
  | [] => []
  | x :: t => match t with
              | [] => x
              | _ :: _ => x ++ sep ++ join sep t
              end
  end.

Definition JSON_stringify_2 (props : list (jsstring * prim)) : jsstring :=
  match props with
  | [] => [123; 125]
  | _ :: _ =>
      [123; 10; 32; 32]
        ++ join [44; 10; 32; 32] (map stringify_member props)
        ++ [10; 125]
  end.

(** *** [JSON.parse]: a pushdown automaton, one code unit per step *)

Inductive strkind :=
| SKValue
| SKKey (props_rev : list (jsstring * json)).

Inductive numphase :=
| NSign | NZero | NInt | NDot | NFrac | NExp | NExpSign | NExpDigits.

Record numstate := mkNum {
  neg : bool; phase : numphase; mant : N; scale : N; eneg : bool; expo : N }.

Inductive mode :=
| MValue
| MArrayStart
| MObjectStart
| MObjectKey (props_rev : list (jsstring * json))
| MColon (props_rev : list (jsstring * json)) (key : jsstring)
| MAfterElem (items_rev : list json)
| MAfterMember (props_rev : list (jsstring * json))
| MDone (v : json)
| MString (k : strkind) (acc_rev : jsstring)
| MEscape (k : strkind) (acc_rev : jsstring)
| MUnicode (k : strkind) (acc_rev : jsstring) (n : nat) (v : N)
| MNumber (ns : numstate)
| MLiteral (rest : jsstring) (v : json).

Inductive frame :=
| FArray (items_rev : list json)
| FObject (props_rev : list (jsstring * json)) (key : jsstring).

Definition pstate : Type := mode * list frame.

Definition is_json_space (c : codeunit) : bool :=
  (c =? 32) || (c =? 9) || (c =? 10) || (c =? 13).

(** A finished value goes to the enclosing container. *)
Definition deliver (v : json) (st : list frame) : pstate :=
  match st with
  | [] => (MDone v, [])
  | FArray items :: st' => (MAfterElem (v :: items), st')
  | FObject props key :: st' => (MAfterMember ((key, v) :: props), st')
  end.

Fixpoint strip_zeros (fuel : nat) (m e : Z) : Z * Z :=
  match fuel with
  | O => (m, e)
  | S f => if ((e <? 0) && (m mod 10 =? 0))%Z
           then strip_zeros f (m / 10)%Z (e + 1)%Z
           else (m, e)
  end.

Definition normalize (m e : Z) : Z * Z :=
  if (m =? 0)%Z then (0, 0)%Z
  else if (0 <=? e)%Z then (m * 10 ^ e, 0)%Z
  else strip_zeros (Z.to_nat (- e)) m e.

Definition num_complete (ns : numstate) : bool :=
  match phase ns with
  | NZero | NInt | NFrac | NExpDigits => true
  | _ => false
  end.

Definition num_value (ns : numstate) : json :=
  let m := if neg ns then (- Z.of_N (mant ns))%Z else Z.of_N (mant ns) in
  let x := if eneg ns then (- Z.of_N (expo ns))%Z else Z.of_N (expo ns) in
  let '(m', e') := normalize m (x - Z.of_N (scale ns)) in
  JNumber m' e'.

Definition hex_val (c : codeunit) : option N :=
  if is_digit c then Some (c - 48)
  else if (97 <=? c) && (c <=? 102) then Some (c - 87)
  else if (65 <=? c) && (c <=? 70) then Some (c - 55)
  else None.

Definition step_number (ns : numstate) (c : codeunit) : option numstate :=
  let set p := Some (mkNum (neg ns) p (mant ns) (scale ns) (eneg ns) (expo ns)) in
  if is_digit c then
    let d := c - 48 in
    match phase ns with
    | NSign => Some (mkNum (neg ns) (if d =? 0 then NZero else NInt) d 0 false 0)
    | NZero => None
    | NInt => Some (mkNum (neg ns) NInt (10 * mant ns + d) 0 false 0)
    | NDot | NFrac =>
        Some (mkNum (neg ns) NFrac (10 * mant ns + d) (scale ns + 1) false 0)
    | NExp | NExpSign | NExpDigits =>
        Some (mkNum (neg ns) NExpDigits (mant ns) (scale ns) (eneg ns)
                (10 * expo ns + d))
    end
  else if c =? 46 then
    match phase ns with
    | NZero | NInt => set NDot
    | _ => None
    end
  else if (c =? 101) || (c =? 69) then
    match phase ns with
    | NZero | NInt | NFrac => set NExp
    | _ => None
    end
  else if (c =? 43) || (c =? 45) then
    match phase ns with
    | NExp => Some (mkNum (neg ns) NExpSign (mant ns) (scale ns) (c =? 45) 0)
    | _ => None
    end
  else None.

Definition is_number_char (c : codeunit) : bool :=
  is_digit c || (c =? 46) || (c =? 101) || (c =? 69) || (c =? 43) || (c =? 45).

(** The modes that follow a complete value. *)
Definition step_after (m : mode) (st : list frame) (c : codeunit) : option pstate :=
  if is_json_space c then Some (m, st)
  else
    match m with
    | MAfterElem items =>
        if c =? 44 then Some (MValue, FArray items :: st)
        else if c =? 93 then Some (deliver (JArray (rev items)) st)
        else None
    | MAfterMember props =>
        if c =? 44 then Some (MObjectKey props, st)
        else if c =? 125 then Some (deliver (JObject (rev props)) st)
        else None
    | _ => None
    end.

Definition step_value (st : list frame) (c : codeunit) : option pstate :=
  if c =? 34 then Some (MString SKValue [], st)
  else if c =? 91 then Some (MArrayStart, st)
  else if c =? 123 then Some (MObjectStart, st)
  else if c =? 45 then Some (MNumber (mkNum true NSign 0 0 false 0), st)
  else if c =? 48 then Some (MNumber (mkNum false NZero 0 0 false 0), st)
  else if is_digit c then Some (MNumber (mkNum false NInt (c - 48) 0 false 0), st)
  else if c =? 116 then Some (MLiteral [114; 117; 101] (JBool true), st)
  else if c =? 102 then Some (MLiteral [97; 108; 115; 101] (JBool false), st)
  else if c =? 110 then Some (MLiteral [117; 108; 108] JNull, st)
  else None.

Definition step (ps : pstate) (c : codeunit) : option pstate :=
  let '(m, st) := ps in
  match m with
  | MValue => if is_json_space c then Some (MValue, st) else step_value st c
  | MArrayStart =>
      if is_json_space c then Some (MArrayStart, st)
      else if c =? 93 then Some (deliver (JArray []) st)
      else step_value (FArray [] :: st) c
  | MObjectStart =>
      if is_json_space c then Some (MObjectStart, st)
      else if c =? 125 then Some (deliver (JObject []) st)
      else if c =? 34 then Some (MString (SKKey []) [], st)
      else None
  | MObjectKey props =>
      if is_json_space c then Some (m, st)
      else if c =? 34 then Some (MString (SKKey props) [], st)
      else None
  | MColon props key =>
      if is_json_space c then Some (m, st)
      else if c =? 58 then Some (MValue, FObject props key :: st)
      else None
  | MAfterElem _ | MAfterMember _ | MDone _ => step_after m st c
  | MString k acc =>
      if c =? 34 then
        match k with
        | SKValue => Some (deliver (JString (rev acc)) st)
        | SKKey props => Some (MColon props (rev acc), st)
        end
      else if c =? 92 then Some (MEscape k acc, st)
      else if c <? 32 then None
      else Some (MString k (c :: acc), st)
  | MEscape k acc =>
      if c =? 34 then Some (MString k (34 :: acc), st)
      else if c =? 92 then Some (MString k (92 :: acc), st)
      else if c =? 47 then Some (MString k (47 :: acc), st)
      else if c =? 98 then Some (MString k (8 :: acc), st)
      else if c =? 102 then Some (MString k (12 :: acc), st)
      else if c =? 110 then Some (MString k (10 :: acc), st)
      else if c =? 114 then Some (MString k (13 :: acc), st)
      else if c =? 116 then Some (MString k (9 :: acc), st)
      else if c =? 117 then Some (MUnicode k acc 0 0, st)
      else None
  | MUnicode k acc n v =>
      match hex_val c with
      | Some h =>
          match n with
          | 3%nat => Some (MString k ((16 * v + h) :: acc), st)
          | _ => Some (MUnicode k acc (S n) (16 * v + h), st)
          end
      | None => None
      end
  | MNumber ns =>
      if is_number_char c then
        match step_number ns c with
        | Some ns' => Some (MNumber ns', st)
        | None => None
        end
      else if num_complete ns then
        let '(m', st') := deliver (num_value ns) st in step_after m' st' c
      else None
  | MLiteral rest v =>
      match rest with
      | x :: r =>
          if c =? x then
            match r with
            | [] => Some (deliver v st)
            | _ :: _ => Some (MLiteral r v, st)
            end
          else None
      | [] => None
      end
  end.

Fixpoint run (ps : pstate) (s : jsstring) : option pstate :=
  match s with
  | [] => Some ps
  | c :: t => match step ps c with
              | Some ps' => run ps' t
              | None => None
              end
  end.

(** End of input: the text must have been exactly one value. *)
Definition finish (ps : pstate) : option json :=
  match ps with
  | (MDone v, []) => Some v
  | (MNumber ns, []) => if num_complete ns then Some (num_value ns) else None
  | _ => None
  end.

(** [JSON.parse(text)]; [None] is the SyntaxError it throws. *)
Definition JSON_parse (text : jsstring) : option json :=
  match run (MValue, []) text with
  | Some ps => finish ps
  | None => None
  end.

(* ------------------------------------------------------------------ *)
(** ** Values crossing the tool boundary *)

(** An argument of a tool call as the handlers use it. *)
Inductive jsval :=
| VUndefined
| VNumber (n : Z)
| VString (s : jsstring).

(** A field declared [T | null] and optional. *)
Inductive opt (A : Type) :=
| Absent
| IsNull
| Val (a : A).
Arguments Absent {A}.
Arguments IsNull {A}.
Arguments Val {A} a.

(** [String(v)] and the conversion of a template literal. *)
Definition ToString (v : jsval) : jsstring :=
  match v with
  | VUndefined => js "undefined"
  | VNumber n => Number_toString n
  | VString s => s
  end.

Definition opt_string_text (o : opt jsstring) : jsstring :=
  match o with
  | Absent => js "undefined"
  | IsNull => js "null"
  | Val s => s
  end.

Definition option_string_text (o : option jsstring) : jsstring :=
  match o with
  | None => js "undefined"
  | Some s => s
  end.

Definition truthy (v : jsval) : bool :=
  match v with
  | VUndefined => false
  | VNumber n => negb (n =? 0)%Z
  | VString s => match s with [] => false | _ :: _ => true end
  end.

Definition truthy_json (v : json) : bool :=
  match v with
  | JNull => false
  | JBool b => b
  | JNumber m _ => negb (m =? 0)%Z
  | JString s => match s with [] => false | _ :: _ => true end
  | JArray _ | JObject _ => true
  end.

(** [a || b] on an optional string: the empty string is falsy too. *)
Definition or_default (a : option jsstring) (b : jsstring) : jsstring :=
  match a with
  | Some (c :: t) => c :: t
  | _ => b
  end.

(** A number used as a condition: absent, null and 0 are falsy. *)
Definition truthy_minutes (o : opt Z) : option Z :=
  match o with
  | Val n => if (n =? 0)%Z then None else Some n
  | _ => None
  end.

Definition Args := list (jsstring * jsval).

(** [args?.name] *)
Fixpoint arg (a : Args) (name : jsstring) : jsval :=
  match a with
  | [] => VUndefined
  | (k, v) :: t => if jsstring_eqb k name then v else arg t name
  end.

(* ------------------------------------------------------------------ *)
(** ** types.ts *)

(** The fields of [McpProfile] the server reads ([message], [activated_at]
    and [data_indexed_at] are never read). *)
Record McpProfile := {
  number : Z;
  id : jsstring;
  name : jsstring;
  region : jsstring;
  mcp_activated : bool;
  mcp_data_status : opt jsstring;
  is_ready : bool;
  estimated_minutes : opt Z }.

Record McpProfilesResponse := {
  profiles : list McpProfile;
  count : Z }.

Record McpActivateResponse := {
  act_profile_id : jsstring;
  act_status : jsstring;
  act_estimated_minutes : option Z }.

Record ImportProgress := {
  unique_dates : Z;
  expected_days : Z;
  progress_percent : Z }.

Record McpProfileStatusResponse := {
  available : bool;
  reason : jsstring;
  st_message : jsstring;
  st_estimated_minutes : opt Z;
  import_progress : option ImportProgress }.

(** The type [T] at which a call site reads the body of a response. *)
Inductive shape :=
| SMcpProfiles
| SMcpActivate
| SMcpStatus
| SJson.

Definition data_of (s : shape) : Type :=
  match s with
  | SMcpProfiles => McpProfilesResponse
  | SMcpActivate => McpActivateResponse
  | SMcpStatus => McpProfileStatusResponse
  | SJson => json
  end.

(** [!!data] for a datum read at shape [s]: an object is truthy. *)
Definition data_truthy (s : shape) : data_of s -> bool :=
  match s return data_of s -> bool with
  | SJson => truthy_json
  | _ => fun _ => true
  end.

(* ------------------------------------------------------------------ *)
(** ** api-client.ts: [ApiResponse] *)

Record ApiResponse (T : Type) := {
  success : bool;
  data : option T;
  error : option jsstring;
  message : option jsstring;
  data_not_ready : bool;
  status : option jsstring;
  resp_estimated_minutes : opt Z }.
Arguments success {T} _.
Arguments data {T} _.
Arguments error {T} _.
Arguments message {T} _.
Arguments data_not_ready {T} _.
Arguments status {T} _.
Arguments resp_estimated_minutes {T} _.

(** [{ success: false, error }] *)
Definition failure {T : Type} (msg : jsstring) : ApiResponse T :=
  {| success := false; data := None; error := Some msg; message := None;
     data_not_ready := false; status := None; resp_estimated_minutes := Absent |}.

(* ------------------------------------------------------------------ *)
(** ** The world a tool call runs in *)

Inductive exn :=
| JsError (msg : jsstring).

Definition exn_message (e : exn) : jsstring :=
  match e with JsError m => m end.

Inductive Method := GET | PATCH | POST.

Definition method_text (m : Method) : jsstring :=
  match m with
  | GET => js "GET"
  | PATCH => js "PATCH"
  | POST => js "POST"
  end.

Record Request := {
  method : Method;
  path : jsstring;
  query : list (jsstring * jsstring);
  body : option (list (jsstring * jsval)) }.

(** What [fetch] and [response.json()] give: an exception, or the status line
    and the body read at the type of the call site. *)
Inductive FetchOutcome (T : Type) :=
| FetchFails (msg : jsstring)
| Http (ok : bool) (code : Z) (statusText : jsstring) (body : ApiResponse T).
Arguments FetchFails {T} msg.
Arguments Http {T} ok code statusText body.

(** The context file [~/.ppc-prophet/context.json]. *)
Inductive FileState :=
| NoFile
| Unreadable
| Content (text : jsstring).

Record FileSystem := {
  dir_exists : bool;
  file : FileState;
  writable : bool }.

Inductive LogEntry :=
| LogError (timestamp msg : jsstring) (cause : option exn)
| LogInfo (timestamp msg : jsstring).

(** The remote service answers the last request of a history; the answer is
    read at the shape of the call site. *)
Record World := {
  fs : FileSystem;
  remote : list Request -> forall s : shape, FetchOutcome (data_of s);
  calls : list Request;
  log : list LogEntry;
  clock : nat -> jsstring;
  ticks : nat;
  apiUrl : jsstring;
  apiUrl_valid : bool }.

Inductive Result (A : Type) :=
| Returns (a : A)
| Throws (e : exn).
Arguments Returns {A} a.
Arguments Throws {A} e.

Definition M (A : Type) : Type := World -> Result A * World.

Definition ret {A} (a : A) : M A := fun w => (Returns a, w).

Definition bind {A B} (c : M A) (k : A -> M B) : M B :=
  fun w => match c w with
           | (Returns a, w') => k a w'
           | (Throws e, w') => (Throws e, w')
           end.

Definition throw {A} (e : exn) : M A := fun w => (Throws e, w).

(** [try { c } catch (error) { h error }] *)
Definition try_catch {A} (c : M A) (h : exn -> M A) : M A :=
  fun w => match c w with
           | (Returns a, w') => (Returns a, w')
           | (Throws e, w') => h e w'
           end.

Definition lift {A} (r : Result A) : M A := fun w => (r, w).

Notation "x <- c ;; k" := (bind c (fun x => k))
  (at level 61, c at next level, right associativity).
Notation "c ;;; k" := (bind c (fun _ => k))
  (at level 61, right associativity).

Definition set_fs (f : FileSystem) (w : World) : World :=
  {| fs := f; remote := remote w; calls := calls w; log := log w;
     clock := clock w; ticks := ticks w; apiUrl := apiUrl w;
     apiUrl_valid := apiUrl_valid w |}.

Definition set_calls (c : list Request) (w : World) : World :=
  {| fs := fs w; remote := remote w; calls := c; log := log w;
     clock := clock w; ticks := ticks w; apiUrl := apiUrl w;
     apiUrl_valid := apiUrl_valid w |}.

Definition set_log (l : list LogEntry) (w : World) : World :=
  {| fs := fs w; remote := remote w; calls := calls w; log := l;
     clock := clock w; ticks := ticks w; apiUrl := apiUrl w;
     apiUrl_valid := apiUrl_valid w |}.

Definition set_ticks (n : nat) (w : World) : World :=
  {| fs := fs w; remote := remote w; calls := calls w; log := log w;
     clock := clock w; ticks := n; apiUrl := apiUrl w;
     apiUrl_valid := apiUrl_valid w |}.

(** [new Date().toISOString()] *)
Definition now_iso : M jsstring :=
  fun w => (Returns (clock w (ticks w)), set_ticks (S (ticks w)) w).

(** config.ts *)
Definition logError (msg : jsstring) (cause : option exn) : M unit :=
  t <- now_iso ;;
  fun w => (Returns tt, set_log (log w ++ [LogError t msg cause]) w).

Definition logInfo (msg : jsstring) : M unit :=
  t <- now_iso ;;
  fun w => (Returns tt, set_log (log w ++ [LogInfo t msg]) w).

(* ------------------------------------------------------------------ *)
(** ** api-client.ts: [ApiClient] *)

(** [fetch(url, options)] followed by [response.json()]. *)
Definition fetch_json (s : shape) (r : Request) : M (FetchOutcome (data_of s)) :=
  fun w => let h := calls w ++ [r] in (Returns (remote w h s), set_calls h w).

Definition http_error_text (code : Z) (statusText : jsstring) : jsstring :=
  js "HTTP " ++ Number_toString code ++ js ": " ++ statusText.

(** The URL of a request, without the serialised query of a GET. *)
Definition request_url (r : Request) : M jsstring :=
  fun w => (Returns (apiUrl w ++ js "/api" ++ path r), w).

(** [request]: every failure inside comes back as a [success: false]. *)
Definition request (s : shape) (r : Request) : M (ApiResponse (data_of s)) :=
  o <- fetch_json s r ;;
  match o with
  | Http ok code statusText b =>
      if negb ok then
        ret (failure (or_default (error b) (http_error_text code statusText)))
      else ret b
  | FetchFails msg =>
      url <- request_url r ;;
      logError (js "API request failed: " ++ method_text (method r) ++ js " " ++ url)
               (Some (JsError msg)) ;;;
      ret (failure (js "Request failed: " ++ msg))
  end.

(** [get]: builds the URL (which throws on a base that is no URL) and drops
    the parameters that are undefined or empty. *)
Definition keep_param (kv : jsstring * jsval) : bool :=
  match snd kv with
  | VUndefined => false
  | VString [] => false
  | _ => true
  end.

Definition api_get (s : shape) (endpoint : jsstring) (params : list (jsstring * jsval))
  : M (ApiResponse (data_of s)) :=
  fun w =>
    if apiUrl_valid w then
      request s {| method := GET; path := endpoint;
                   query := map (fun kv => (fst kv, ToString (snd kv)))
                                (filter keep_param params);
                   body := None |} w
    else (Throws (JsError (js "Invalid URL")), w).

Definition api_patch (s : shape) (endpoint : jsstring) (b : list (jsstring * jsval))
  : M (ApiResponse (data_of s)) :=
  request s {| method := PATCH; path := endpoint; query := []; body := Some b |}.

Definition api_post (s : shape) (endpoint : jsstring) (b : list (jsstring * jsval))
  : M (ApiResponse (data_of s)) :=
  request s {| method := POST; path := endpoint; query := []; body := Some b |}.

(** [!response.success || !response.data] *)
Definition failed {s : shape} (r : ApiResponse (data_of s)) : bool :=
  negb (success r) || match data r with
                      | Some d => negb (data_truthy s d)
                      | None => true
                      end.

(* ------------------------------------------------------------------ *)
(** ** index.ts: the profile resolver *)

Record Resolved := {
  resolved_id : jsstring;
  resolved_name : jsstring;
  resolved_region : jsstring }.

Definition mcp_profiles_path : jsstring := js "/v1/mcp/profiles".

(** [typeof input === 'number' ? input
      : parseInt(String(input).replace('#', ''), 10)]; [None] is NaN. *)
Definition reference_number (input : jsval) : option Z :=
  match input with
  | VNumber n => Some n
  | _ => parseInt (remove_first 35 (ToString input))
  end.

(** [resolveProfileId]: a reference that reads as a number is looked up in
    a fresh listing; anything else, and a number the listing does not have,
    is taken to be a hash already. [None] is [null]. *)
Definition resolveProfileId (input : jsval) : M (option Resolved) :=
  let num := reference_number input in
  let as_hash :=
    ret (Some {| resolved_id := ToString input; resolved_name := [];
                 resolved_region := [] |}) in
  match num with
  | Some n =>
      response <- api_get SMcpProfiles mcp_profiles_path [] ;;
      if failed response then ret None
      else
        match data response with
        | None => ret None
        | Some d =>
            match find (fun p => (number p =? n)%Z) (profiles d) with
            | Some profile =>
                ret (Some {| resolved_id := id profile;
                             resolved_name := name profile;
                             resolved_region := region profile |})
            | None => as_hash
            end
        end
  | None => as_hash
  end.

(* ------------------------------------------------------------------ *)
(** ** index.ts: context management *)

Record ProfileContext := {
  profileId : jsstring;
  profileNumber : Z;
  profileName : jsstring;
  ctx_region : jsstring;
  setAt : jsstring }.

(** What a UTF-8 write followed by a UTF-8 read makes of a string: a
    surrogate outside a pair comes back as U+FFFD. *)
Fixpoint utf8_stored (s : jsstring) : jsstring :=
  match s with
  | [] => []
  | c :: t =>
      if is_high_surrogate c then
        match t with
        | d :: t' =>
            if is_low_surrogate d then c :: d :: utf8_stored t'
            else 65533 :: utf8_stored t
        | [] => [65533]
        end
      else if is_low_surrogate c then 65533 :: utf8_stored t
      else c :: utf8_stored t
  end.

(** A code unit that is no half of a surrogate pair. *)
Definition no_surrogate (c : codeunit) : Prop :=
  is_high_surrogate c = false /\ is_low_surrogate c = false.

Definition existsSync_dir : M bool := fun w => (Returns (dir_exists (fs w)), w).

Definition existsSync_file : M bool :=
  fun w => (Returns (match file (fs w) with NoFile => false | _ => true end), w).

Definition mkdirSync : M unit :=
  fun w =>
    if writable (fs w) then
      (Returns tt, set_fs {| dir_exists := true; file := file (fs w);
                             writable := true |} w)
    else (Throws (JsError (js "EACCES: permission denied, mkdir")), w).

Definition readFileSync : M jsstring :=
  fun w =>
    match file (fs w) with
    | Content t => (Returns t, w)
    | Unreadable => (Throws (JsError (js "EACCES: permission denied, open")), w)
    | NoFile => (Throws (JsError (js "ENOENT: no such file or directory, open")), w)
    end.

Definition writeFileSync (t : jsstring) : M unit :=
  fun w =>
    if writable (fs w) && dir_exists (fs w) then
      (Returns tt, set_fs {| dir_exists := true; file := Content (utf8_stored t);
                             writable := true |} w)
    else (Throws (JsError (js "EACCES: permission denied, open")), w).

Definition unlinkSync : M unit :=
  fun w =>
    if writable (fs w) then
      (Returns tt, set_fs {| dir_exists := dir_exists (fs w); file := NoFile;
                             writable := true |} w)
    else (Throws (JsError (js "EACCES: permission denied, unlink")), w).

Definition ensureContextDir : M unit :=
  e <- existsSync_dir ;;
  if negb e then mkdirSync else ret tt.

Definition context_props (c : ProfileContext) : list (jsstring * prim) :=
  [ (js "profileId", PString (profileId c));
    (js "profileNumber", PNumber (profileNumber c));
    (js "profileName", PString (profileName c));
    (js "region", PString (ctx_region c));
    (js "setAt", PString (setAt c)) ].

(** The object a context is, as a JSON value. *)
Definition context_json (c : ProfileContext) : json :=
  JObject [ (js "profileId", JString (profileId c));
            (js "profileNumber", JNumber (profileNumber c) 0);
            (js "profileName", JString (profileName c));
            (js "region", JString (ctx_region c));
            (js "setAt", JString (setAt c)) ].

(** [JSON.parse] as a computation: a text that is no JSON throws. *)
Definition JSON_parse_M (t : jsstring) : M json :=
  match JSON_parse t with
  | Some v => ret v
  | None => throw (JsError (js "Unexpected token in JSON"))
  end.

(** [readContext]; [None] is [null]. *)
Definition readContext : M (option json) :=
  try_catch
    (e <- existsSync_file ;;
     if negb e then ret None
     else
       d <- readFileSync ;;
       v <- JSON_parse_M d ;;
       ret (match v with JNull => None | _ => Some v end))
    (fun err => logError (js "Failed to read context file") (Some err) ;;; ret None).

Definition writeContext (context : ProfileContext) : M unit :=
  try_catch
    (ensureContextDir ;;;
     writeFileSync (JSON_stringify_2 (context_props context)) ;;;
     logInfo (js "Context updated: " ++ profileName context))
    (fun err => logError (js "Failed to write context file") (Some err)).

Definition clearContext : M unit :=
  try_catch
    (e <- existsSync_file ;;
     if e then unlinkSync ;;; logInfo (js "Context cleared") else ret tt)
    (fun err => logError (js "Failed to clear context file") (Some err)).

(** The fields of a stored context, read at their declared types. *)
Definition as_ProfileContext (v : json) : option ProfileContext :=
  match v with
  | JObject props =>
      match get_prop (js "profileId") props, get_prop (js "profileNumber") props,
            get_prop (js "profileName") props, get_prop (js "region") props,
            get_prop (js "setAt") props with
      | Some (JString i), Some (JNumber n 0%Z), Some (JString nm),
        Some (JString r), Some (JString t) =>
          Some {| profileId := i; profileNumber := n; profileName := nm;
                  ctx_region := r; setAt := t |}
      | _, _, _, _, _ => None
      end
  | _ => None
  end.

(* ------------------------------------------------------------------ *)
(** ** index.ts: the tools *)

Record TextContent := {
  type : jsstring;
  text : jsstring }.

Record CallToolResult := {
  content : list TextContent }.

(** [{ content: [{ type: 'text', text }] }] *)
Definition text_result (t : jsstring) : CallToolResult :=
  {| content := [ {| type := js "text"; text := t |} ] |}.

Inductive Tool :=
| list_profiles | get_profile | list_campaigns | get_campaign
| update_campaign_status | update_campaign_budget | search_campaigns
| list_keywords | update_keyword_bid | update_keyword_status
| get_performance | get_campaign_performance
| list_mcp_profiles | activate_mcp_profile | check_mcp_status
| deactivate_mcp_profile | set_current_profile.

Definition tool_name (t : Tool) : jsstring :=
  match t with
  | list_profiles => js "list_profiles"
  | get_profile => js "get_profile"
  | list_campaigns => js "list_campaigns"
  | get_campaign => js "get_campaign"
  | update_campaign_status => js "update_campaign_status"
  | update_campaign_budget => js "update_campaign_budget"
  | search_campaigns => js "search_campaigns"
  | list_keywords => js "list_keywords"
  | update_keyword_bid => js "update_keyword_bid"
  | update_keyword_status => js "update_keyword_status"
  | get_performance => js "get_performance"
  | get_campaign_performance => js "get_campaign_performance"
  | list_mcp_profiles => js "list_mcp_profiles"
  | activate_mcp_profile => js "activate_mcp_profile"
  | check_mcp_status => js "check_mcp_status"
  | deactivate_mcp_profile => js "deactivate_mcp_profile"
  | set_current_profile => js "set_current_profile"
  end.

(** The tools of the [tools] array, in its order. *)
Definition tools : list Tool :=
  [ list_profiles; get_profile; list_campaigns; get_campaign;
    update_campaign_status; update_campaign_budget; search_campaigns;
    list_keywords; update_keyword_bid; update_keyword_status;
    get_performance; get_campaign_performance;
    list_mcp_profiles; activate_mcp_profile; check_mcp_status;
    deactivate_mcp_profile; set_current_profile ].

(** The [case] labels of the [switch], tried in order. *)
Definition tool_of_name (n : jsstring) : option Tool :=
  find (fun t => jsstring_eqb n (tool_name t)) tools.

Definition nl : jsstring := [10].

(** [`Error: ${response.error || fallback}`] *)
Definition error_text {T} (r : ApiResponse T) (fallback : jsstring) : jsstring :=
  js "Error: " ++ or_default (error r) fallback.

(** [#${p.number}. ${p.name} (${p.region})\n] *)
Definition profile_line (p : McpProfile) : jsstring :=
  js "#" ++ Number_toString (number p) ++ js ". " ++ name p ++ js " ("
     ++ region p ++ js ")" ++ nl.

Definition importing_line (p : McpProfile) : jsstring :=
  let eta := match truthy_minutes (estimated_minutes p) with
             | Some n => js " - ~" ++ Number_toString n ++ js " min remaining"
             | None => []
             end in
  js "#" ++ Number_toString (number p) ++ js ". " ++ name p ++ js " ("
     ++ region p ++ js ") - " ++ opt_string_text (mcp_data_status p) ++ eta ++ nl.

Definition length_text {A} (l : list A) : jsstring :=
  Number_toString (Z.of_nat (List.length l)).

Definition profile_group (title : jsstring) (line : McpProfile -> jsstring)
    (l : list McpProfile) : jsstring :=
  match l with
  | [] => []
  | _ :: _ => js "**" ++ title ++ js " (" ++ length_text l ++ js "):**" ++ nl
              ++ List.concat (map line l) ++ nl
  end.

Definition activated_text (profile : McpProfile)
    (d : option McpActivateResponse) : jsstring :=
  js "**Profile Activated for MCP Access**" ++ nl ++ nl
  ++ js "Profile: " ++ name profile ++ js " (" ++ region profile ++ js ")" ++ nl
  ++ js "Status: "
  ++ or_default (option_map act_status d) (js "pending") ++ nl
  ++ match d with
     | Some r =>
         match act_estimated_minutes r with
         | Some n => if (n =? 0)%Z then []
                     else js "Estimated time: ~" ++ Number_toString n
                          ++ js " minutes" ++ nl
         | None => []
         end
     | None => []
     end
  ++ nl ++ js "Data import has started. Use `check_mcp_status` to monitor progress.".

Definition status_text (profile : McpProfile)
    (st : McpProfileStatusResponse) : jsstring :=
  js "**MCP Status: " ++ name profile ++ js " (" ++ region profile ++ js ")**"
  ++ nl ++ nl
  ++ js "Available: " ++ (if available st then js "Yes" else js "No") ++ nl
  ++ js "Status: " ++ reason st ++ nl
  ++ js "Message: " ++ st_message st ++ nl
  ++ match truthy_minutes (st_estimated_minutes st) with
     | Some n => js "Estimated time remaining: ~" ++ Number_toString n
                 ++ js " minutes" ++ nl
     | None => []
     end
  ++ match import_progress st with
     | Some ip =>
         nl ++ js "**Import Progress:**" ++ nl
         ++ js "- Days imported: " ++ Number_toString (unique_dates ip) ++ js " / "
         ++ Number_toString (expected_days ip) ++ nl
         ++ js "- Progress: " ++ Number_toString (progress_percent ip) ++ js "%" ++ nl
     | None => []
     end
  ++ (if available st
      then nl ++ js "This profile is ready! You can now query campaigns, keywords, and performance data."
      else []).

Definition not_activated_text (profile : McpProfile) : jsstring :=
  js "Error: Profile **" ++ name profile ++ js "** (#"
  ++ Number_toString (number profile)
  ++ js ") is not activated for MCP access." ++ nl ++ nl
  ++ js "Please activate it first using: activate_mcp_profile".

Definition importing_warning_text (profile : McpProfile) : jsstring :=
  js "Warning: Profile **" ++ name profile ++ js "** (#"
  ++ Number_toString (number profile)
  ++ js ") is activated but data is still importing (status: "
  ++ opt_string_text (mcp_data_status profile) ++ js ")." ++ nl ++ nl
  ++ js "You can set it as current, but queries may return limited data until import completes.".

(** The text opens with U+2713, the check mark. *)
Definition context_set_text (profile : McpProfile) : jsstring :=
  [10003] ++ js " Current working profile set to: **" ++ name profile
  ++ js "** (#" ++ Number_toString (number profile) ++ js ") - " ++ region profile
  ++ nl ++ nl ++ js "All subsequent commands will use this profile automatically.".

(** [profile.mcp_data_status !== 'ready'] *)
Definition status_is_ready (o : opt jsstring) : bool :=
  match o with
  | Val s => jsstring_eqb s (js "ready")
  | _ => false
  end.

(** [if (args?.k) params.k = conv(args.k)]: a parameter set only when truthy. *)
Definition when_truthy (a : Args) (k : jsstring) (conv : jsval -> jsval)
  : list (jsstring * jsval) :=
  if truthy (arg a k) then [(k, conv (arg a k))] else [].

Definition as_string (v : jsval) : jsval := v.
Definition String_of (v : jsval) : jsval := VString (ToString v).

Section Server.

(** The text a tool makes of a campaign, keyword, performance or plain
    profile payload: formatting of JavaScript doubles ([toFixed],
    [toLocaleString]) over untyped JSON, which may throw. It is a parameter
    of the server. *)
Variable render : Tool -> Args -> json -> Result jsstring.

(** The common tail of the pass-through tools: the error text, or the
    rendering of the payload. *)
Definition render_or_error (t : Tool) (args : Args)
    (response : ApiResponse json) (fallback : jsstring) : M CallToolResult :=
  if failed (s := SJson) response then ret (text_result (error_text response fallback))
  else
    match data response with
    | None => ret (text_result (error_text response fallback))
    | Some d => tx <- lift (render t args d) ;; ret (text_result tx)
    end.

(** The tail of the update tools: [response.message || fallback]. *)
Definition message_or_error (response : ApiResponse json)
    (fallback_error fallback : jsstring) : M CallToolResult :=
  if negb (success response) then ret (text_result (error_text response fallback_error))
  else ret (text_result (or_default (message response) fallback)).

(** [find] by number in a fresh listing, then [k]; the two error texts of
    the MCP tools addressed by number. *)
Definition with_profile_by_number (args : Args) (not_found_tail : jsstring)
    (k : McpProfile -> M CallToolResult) : M CallToolResult :=
  let profileNumber := arg args (js "number") in
  listResponse <- api_get SMcpProfiles mcp_profiles_path [] ;;
  if failed listResponse
  then ret (text_result (error_text listResponse (js "Failed to fetch profiles")))
  else
    match data listResponse with
    | None => ret (text_result (error_text listResponse (js "Failed to fetch profiles")))
    | Some d =>
        match find (fun p => match profileNumber with
                             | VNumber n => (number p =? n)%Z
                             | _ => false
                             end) (profiles d) with
        | None =>
            ret (text_result (js "Error: Profile #" ++ ToString profileNumber
                                ++ js " not found." ++ not_found_tail))
        | Some profile => k profile
        end
    end.

Definition case_body (t : Tool) (args : Args) : M CallToolResult :=
  match t with
  | list_profiles =>
      response <- api_get SJson (js "/v1/amazon/profiles") [] ;;
      render_or_error t args response (js "Failed to fetch profiles")
  | get_profile =>
      let profileId := arg args (js "profile_id") in
      response <- api_get SJson (js "/v1/amazon/profiles/" ++ ToString profileId) [] ;;
      render_or_error t args response (js "Profile not found")
  | list_campaigns =>
      resolved <- resolveProfileId (arg args (js "profile_id")) ;;
      match resolved with
      | None =>
          ret (text_result (js "Error: Could not resolve profile. Use list_profiles to see available profiles."))
      | Some r =>
          let params :=
            [(js "profile_id", VString (resolved_id r))]
              ++ when_truthy args (js "status") as_string
              ++ when_truthy args (js "targeting_type") as_string
              ++ when_truthy args (js "limit") String_of in
          response <- api_get SJson (js "/v1/amazon/campaigns") params ;;
          render_or_error t args response (js "Failed to fetch campaigns")
      end
  | get_campaign =>
      response <- api_get SJson
        (js "/v1/amazon/campaigns/" ++ ToString (arg args (js "campaign_id")))
        [(js "profile_id", arg args (js "profile_id"))] ;;
      render_or_error t args response (js "Campaign not found")
  | update_campaign_status =>
      response <- api_patch SJson
        (js "/v1/amazon/campaigns/" ++ ToString (arg args (js "campaign_id"))
            ++ js "/status")
        [(js "profile_id", arg args (js "profile_id"));
         (js "status", arg args (js "status"))] ;;
      message_or_error response (js "Failed to update status")
        (js "Campaign status updated to " ++ ToString (arg args (js "status")))
  | update_campaign_budget =>
      response <- api_patch SJson
        (js "/v1/amazon/campaigns/" ++ ToString (arg args (js "campaign_id"))
            ++ js "/budget")
        [(js "profile_id", arg args (js "profile_id"));
         (js "budget", arg args (js "budget"))] ;;
      message_or_error response (js "Failed to update budget")
        (js "Campaign budget updated to $" ++ ToString (arg args (js "budget"))
            ++ js "/day")
  | search_campaigns =>
      response <- api_get SJson (js "/v1/amazon/campaigns/search")
        [(js "profile_id", arg args (js "profile_id"));
         (js "q", arg args (js "query"))] ;;
      render_or_error t args response (js "Search failed")
  | list_keywords =>
      let params :=
        [(js "profile_id", arg args (js "profile_id"))]
          ++ when_truthy args (js "campaign_id") as_string
          ++ when_truthy args (js "status") as_string
          ++ when_truthy args (js "match_type") as_string
          ++ when_truthy args (js "limit") String_of in
      response <- api_get SJson (js "/v1/amazon/keywords") params ;;
      render_or_error t args response (js "Failed to fetch keywords")
  | update_keyword_bid =>
      response <- api_patch SJson
        (js "/v1/amazon/keywords/" ++ ToString (arg args (js "keyword_id"))
            ++ js "/bid")
        [(js "profile_id", arg args (js "profile_id"));
         (js "bid", arg args (js "bid"))] ;;
      message_or_error response (js "Failed to update bid")
        (js "Keyword bid updated to $" ++ ToString (arg args (js "bid")))
  | update_keyword_status =>
      response <- api_patch SJson
        (js "/v1/amazon/keywords/" ++ ToString (arg args (js "keyword_id"))
            ++ js "/status")
        [(js "profile_id", arg args (js "profile_id"));
         (js "status", arg args (js "status"))] ;;
      message_or_error response (js "Failed to update status")
        (js "Keyword status updated to " ++ ToString (arg args (js "status")))
  | get_performance =>
      response <- api_get SJson (js "/v1/amazon/reports/performance")
        [(js "profile_id", arg args (js "profile_id"));
         (js "start_date", arg args (js "start_date"));
         (js "end_date", arg args (js "end_date"))] ;;
      render_or_error t args response (js "Failed to fetch performance")
  | get_campaign_performance =>
      let params :=
        [(js "profile_id", arg args (js "profile_id"));
         (js "start_date", arg args (js "start_date"));
         (js "end_date", arg args (js "end_date"))]
          ++ when_truthy args (js "sort_by") as_string
          ++ when_truthy args (js "order") as_string
          ++ when_truthy args (js "limit") String_of
          ++ when_truthy args (js "status") as_string in
      response <- api_get SJson (js "/v1/amazon/reports/campaign-performance") params ;;
      render_or_error t args response (js "Failed to fetch campaign performance")
  | list_mcp_profiles =>
      response <- api_get SMcpProfiles mcp_profiles_path [] ;;
      if failed response
      then ret (text_result (error_text response (js "Failed to fetch profiles")))
      else
        match data response with
        | None => ret (text_result (error_text response (js "Failed to fetch profiles")))
        | Some d =>
            match profiles d with
            | [] => ret (text_result (js "No Amazon advertising profiles found for this account."))
            | _ :: _ =>
                let ps := profiles d in
                let ready := filter is_ready ps in
                let importing := filter (fun p => mcp_activated p && negb (is_ready p)) ps in
                let notActivated := filter (fun p => negb (mcp_activated p)) ps in
                ret (text_result
                       (js "Found " ++ length_text ps ++ js " profile(s):" ++ nl ++ nl
                        ++ profile_group (js "Ready for Queries") profile_line ready
                        ++ profile_group (js "Importing Data") importing_line importing
                        ++ profile_group (js "Not Activated") profile_line notActivated
                        ++ js "To activate: say 'activate #2' or similar." // 39 ~> 34))
            end
        end
  | activate_mcp_profile =>
      with_profile_by_number args (js " Use list_profiles to see available profiles.")
        (fun profile =>
           response <- api_post SMcpActivate (js "/v1/mcp/profiles/activate")
                         [(js "profile_id", VString (id profile))] ;;
           if negb (success response)
           then ret (text_result (error_text response (js "Failed to activate profile")))
           else ret (text_result (activated_text profile (data response))))
  | check_mcp_status =>
      with_profile_by_number args []
        (fun profile =>
           response <- api_get SMcpStatus
                         (js "/v1/mcp/profiles/" ++ id profile ++ js "/status") [] ;;
           if failed response
           then ret (text_result (error_text response (js "Failed to get status")))
           else
             match data response with
             | None => ret (text_result (error_text response (js "Failed to get status")))
             | Some st => ret (text_result (status_text profile st))
             end)
  | deactivate_mcp_profile =>
      with_profile_by_number args []
        (fun profile =>
           response <- api_post SJson (js "/v1/mcp/profiles/deactivate")
                         [(js "profile_id", VString (id profile))] ;;
           if negb (success response)
           then ret (text_result (error_text response (js "Failed to deactivate profile")))
           else ret (text_result (js "**" ++ name profile ++ js " (" ++ region profile
                                    ++ js ")** deactivated from MCP access.")))
  | set_current_profile =>
      let profileInput := arg args (js "profile_id") in
      resolved <- resolveProfileId profileInput ;;
      match resolved with
      | None =>
          ret (text_result ((js "Error: Could not resolve profile '" // 39 ~> 34)
                              ++ ToString profileInput ++ [34]))
      | Some r =>
          listResponse <- api_get SMcpProfiles mcp_profiles_path [] ;;
          if failed listResponse
          then ret (text_result (js "Error: Failed to fetch profile list"))
          else
            match data listResponse with
            | None => ret (text_result (js "Error: Failed to fetch profile list"))
            | Some d =>
                match find (fun p => jsstring_eqb (id p) (resolved_id r)) (profiles d) with
                | None => ret (text_result (js "Error: Profile not found in your account"))
                | Some profile =>
                    if negb (mcp_activated profile)
                    then ret (text_result (not_activated_text profile))
                    else if negb (status_is_ready (mcp_data_status profile))
                    then ret (text_result (importing_warning_text profile))
                    else
                      t0 <- now_iso ;;
                      let context :=
                        {| profileId := id profile;
                           profileNumber := number profile;
                           profileName := name profile;
                           ctx_region := region profile;
                           setAt := t0 |} in
                      writeContext context ;;;
                      ret (text_result (context_set_text profile))
                end
            end
      end
  end.

(** The handler of [CallToolRequestSchema]. *)
Definition call_tool (name : jsstring) (args : Args) : M CallToolResult :=
  try_catch
    (match tool_of_name name with
     | Some t => case_body t args
     | None => ret (text_result (js "Unknown tool: " ++ name))
     end)
    (fun err => ret (text_result (js "Error: " ++ exn_message err))).

End Server.

(* ------------------------------------------------------------------ *)
(** ** tools/reports.ts: the sibling [get_performance] *)

Module ToolsReports.
Section Handlers.

Variable render : Tool -> Args -> json -> Result jsstring.

(** The text of the distinguished not-ready answer. *)
Definition not_ready_text (response : ApiResponse json) : jsstring :=
  let estimatedTime :=
    match truthy_minutes (resp_estimated_minutes response) with
    | Some n => js "Estimated time: ~" ++ Number_toString n ++ js " minutes."
    | None => js "Please try again later."
    end in
  js "**Data Not Yet Available**" ++ nl ++ nl
  ++ option_string_text (message response) ++ nl ++ nl ++ estimatedTime.

Definition get_performance_tool (args : Args) : M CallToolResult :=
  response <- api_get SJson (js "/v1/amazon/reports/performance")
    [(js "profile_id", arg args (js "profile_id"));
     (js "start_date", arg args (js "start_date"));
     (js "end_date", arg args (js "end_date"))] ;;
  if data_not_ready response then ret (text_result (not_ready_text response))
  else if failed (s := SJson) response
  then ret (text_result (error_text response (js "Failed to fetch performance data")))
  else
    match data response with
    | None => ret (text_result (error_text response (js "Failed to fetch performance data")))
    | Some d => tx <- lift (render get_performance args d) ;; ret (text_result tx)
    end.

End Handlers.
End ToolsReports.

(* ------------------------------------------------------------------ *)
(** ** Vocabulary of the statements *)

(** The next fetch of the profile listing from [w] succeeds with the
    profiles [L] and leaves the world [w']. *)
Definition fetches_listing (w : World) (L : list McpProfile) (w' : World) : Prop :=
  exists resp d,
    api_get SMcpProfiles mcp_profiles_path [] w = (Returns resp, w')
    /\ success resp = true /\ data resp = Some d /\ profiles d = L.

Definition resolved_of (p : McpProfile) : Resolved :=
  {| resolved_id := id p; resolved_name := name p; resolved_region := region p |}.

Fixpoint starts_with (prefix s : jsstring) : bool :=
  match prefix, s with
  | [], _ => true
  | a :: p', b :: s' => (a =? b) && starts_with p' s'
  | _ :: _, [] => false
  end.

(** The three kinds of answer of [set_current_profile], told apart by the
    way the text opens: there is no other discriminant in a tool result. *)
Definition is_error_text (t : jsstring) : bool := starts_with (js "Error: ") t.
Definition is_warning_text (t : jsstring) : bool := starts_with (js "Warning: ") t.
Definition is_success_text (t : jsstring) : bool := starts_with [10003] t.

(** A computation that, when it returns, returns a text result. *)
Definition returns_text (c : M CallToolResult) : Prop :=
  forall w r w', c w = (Returns r, w') -> exists t, r = text_result t.

(** The request that activates a profile. *)
Definition activate_request (profile_id : jsstring) : Request :=
  {| method := POST; path := js "/v1/mcp/profiles/activate"; query := [];
     body := Some [(js "profile_id", VString profile_id)] |}.

(** *** Sample worlds *)

Definition ok_response {T : Type} (d : T) : ApiResponse T :=
  {| success := true; data := Some d; error := None; message := None;
     data_not_ready := false; status := None; resp_estimated_minutes := Absent |}.

(** The shape [{ data_not_ready: true, message, estimated_minutes }]. *)
Definition not_ready_response {T : Type} (msg : jsstring) (minutes : opt Z)
  : ApiResponse T :=
  {| success := false; data := None; error := None; message := Some msg;
     data_not_ready := true; status := None; resp_estimated_minutes := minutes |}.

(** A service that lists [L], accepts every activation and answers [other]
    to the untyped calls. *)
Definition sample_remote (L : list McpProfile) (other : ApiResponse json)
  : list Request -> forall s : shape, FetchOutcome (data_of s) :=
  fun _ s =>
    match s return FetchOutcome (data_of s) with
    | SMcpProfiles =>
        Http true 200 (js "OK")
             (ok_response {| profiles := L; count := Z.of_nat (List.length L) |})
    | SMcpActivate =>
        Http true 200 (js "OK")
             (ok_response {| act_profile_id := []; act_status := js "pending";
                             act_estimated_minutes := Some 15%Z |})
    | SMcpStatus => FetchFails (js "fetch failed")
    | SJson => Http true 200 (js "OK") other
    end.

Definition sample_world (f : FileState) (L : list McpProfile)
    (other : ApiResponse json) : World :=
  {| fs := {| dir_exists := true; file := f; writable := true |};
     remote := sample_remote L other;
     calls := []; log := [];
     clock := fun _ => js "2026-01-06T09:00:00.000Z"; ticks := 0;
     apiUrl := js "https://ppcgpt.getppcprophet.com"; apiUrl_valid := true |}.

(** The listing of the end-to-end scenario, with a third profile still
    importing. *)
Definition profile_a1 : McpProfile :=
  {| number := 1; id := js "a1"; name := js "Acme US"; region := js "US";
     mcp_activated := false; mcp_data_status := IsNull; is_ready := false;
     estimated_minutes := Absent |}.

Definition profile_b2 : McpProfile :=
  {| number := 2; id := js "b2"; name := js "Acme CA"; region := js "CA";
     mcp_activated := true; mcp_data_status := Val (js "ready"); is_ready := true;
     estimated_minutes := Absent |}.

Definition profile_c3 : McpProfile :=
  {| number := 3; id := js "c3"; name := js "Acme UK"; region := js "UK";
     mcp_activated := true; mcp_data_status := Val (js "importing");
     is_ready := false; estimated_minutes := Val 12%Z |}.

Definition sample_listing : list McpProfile := [profile_a1; profile_b2; profile_c3].

(** A context whose name holds a quote, a backslash, a line feed, a surrogate
    pair and a lone surrogate, written over a file that was no JSON. *)
Definition awkward_context : ProfileContext :=
  {| profileId := js "b2"; profileNumber := -12;
     profileName := [34; 92; 10; 55357; 56832; 55357; 233];
     ctx_region := []; setAt := js "2026-01-06T09:00:00.000Z" |}.

Definition no_render : Tool -> Args -> json -> Result jsstring :=
  fun _ _ _ => Returns [].

(* ------------------------------------------------------------------ *)
(** ** tools/campaigns.ts: the sibling [search_campaigns] *)

Module ToolsCampaigns.
Section Handlers.

Variable render : Tool -> Args -> json -> Result jsstring.

Definition search_campaigns_tool (args : Args) : M CallToolResult :=
  response <- api_get SJson (js "/v1/amazon/campaigns/search")
    [(js "profile_id", arg args (js "profile_id"));
     (js "q", arg args (js "query"))] ;;
  if data_not_ready response
  then ret (text_result (ToolsReports.not_ready_text response))
  else if failed (s := SJson) response
  then ret (text_result (error_text response (js "Search failed")))
  else
    match data response with
    | None => ret (text_result (error_text response (js "Search failed")))
    | Some d => tx <- lift (render search_campaigns args d) ;; ret (text_result tx)
    end.

End Handlers.
End ToolsCampaigns.

(* ------------------------------------------------------------------ *)
(** ** config.ts: [loadConfig] *)

Definition DEFAULT_API_URL : jsstring := js "https://ppcgpt.getppcprophet.com".

(** [process.env] *)
Definition Env := list (jsstring * jsstring).

Fixpoint getenv (e : Env) (k : jsstring) : option jsstring :=
  match e with
  | [] => None
  | (k', v) :: t => if jsstring_eqb k' k then Some v else getenv t k
  end.

Record Config := {
  cfg_apiUrl : jsstring;
  cfg_apiKey : jsstring;
  cfg_defaultProfileId : option jsstring }.

(** [s.replace(/\/$/, '')]: a "/" at the very end goes, once. *)
Fixpoint strip_trailing_slash (s : jsstring) : jsstring :=
  match s with
  | [] => []
  | c :: t => match t with
              | [] => if c =? 47 then [] else [c]
              | _ :: _ => c :: strip_trailing_slash t
              end
  end.

(** [v || undefined] on an optional string. *)
Definition nonempty (o : option jsstring) : option jsstring :=
  match o with
  | Some (c :: t) => Some (c :: t)
  | _ => None
  end.

(** How [loadConfig] ends: [process.exit(code)], or the configuration. *)
Inductive LoadResult :=
| Exit (code : Z)
| Loaded (c : Config).

Definition loadConfig (env : Env) : M LoadResult :=
  let apiUrl := or_default (getenv env (js "PPC_PROPHET_API_URL")) DEFAULT_API_URL in
  let apiKey := getenv env (js "PPC_PROPHET_API_KEY") in
  let defaultProfileId := getenv env (js "PPC_PROPHET_DEFAULT_PROFILE_ID") in
  match nonempty apiKey with
  | None =>
      logError (js "PPC_PROPHET_API_KEY environment variable is required") None ;;;
      logError (js "Get your API token from https://ppcgpt.com (Settings > API Access)")
               None ;;;
      ret (Exit 1)
  | Some key =>
      ret (Loaded {| cfg_apiUrl := strip_trailing_slash apiUrl;
                     cfg_apiKey := key;
                     cfg_defaultProfileId := nonempty defaultProfileId |})
  end.

(* ------------------------------------------------------------------ *)
(** ** Vocabulary of the further statements *)

(** From [w] to [w'] the requests sent, if any, were all GETs. *)
Definition only_gets (w w' : World) : Prop :=
  exists l, calls w' = calls w ++ l /\ Forall (fun r => method r = GET) l.

(** A computation that leaves the file system as it finds it. *)
Definition keeps_fs {A} (c : M A) : Prop :=
  forall w, fs (snd (c w)) = fs w.

(** A computation that sends nothing but GETs. *)
Definition reads_only {A} (c : M A) : Prop :=
  forall w, only_gets w (snd (c w)).

(** The context [set_current_profile] makes of a profile at time [t]. *)
Definition context_of (profile : McpProfile) (t : jsstring) : ProfileContext :=
  {| profileId := id profile; profileNumber := number profile;
     profileName := name profile; ctx_region := region profile; setAt := t |}.

(** The tools that only look things up. *)
Definition is_lookup_tool (t : Tool) : bool :=
  match t with
  | update_campaign_status | update_campaign_budget | update_keyword_bid
  | update_keyword_status | activate_mcp_profile | deactivate_mcp_profile => false
  | _ => true
  end.

(** The request a GET of the profile listing records. *)
Definition listing_request : Request :=
  {| method := GET; path := mcp_profiles_path; query := []; body := None |}.

(* ------------------------------------------------------------------ *)
(** * Properties *)

Example parseInt_ex1 : parseInt (js "#2") = None.
Proof. reflexivity. Qed.
Example parseInt_ex2 : parseInt (remove_first 35 (js "#2")) = Some 2%Z.
Proof. reflexivity. Qed.
Example parseInt_ex3 : parseInt (js " -12ab") = Some (-12)%Z.
Proof. reflexivity. Qed.
Example toString_ex : Number_toString (-1203) = js "-1203".
Proof. reflexivity. Qed.

Example JSON_parse_ex1 :
  JSON_parse (js "{ 'a' : [1, -2.50e1, true, null], 'b': 'xA\n' }" // 39 ~> 34)
  = Some (JObject [(js "a", JArray [JNumber 1 0; JNumber (-25) 0; JBool true; JNull]);
                   (js "b", JString [120; 65; 10])]).
Proof. reflexivity. Qed.
Example JSON_parse_ex2 : JSON_parse (js "{'a': 01}" // 39 ~> 34) = None.
Proof. reflexivity. Qed.
Example JSON_parse_ex3 : JSON_parse (js " 0.125 ") = Some (JNumber 125 (-3)).
Proof. reflexivity. Qed.
Example JSON_parse_ex4 : JSON_parse (js "[1,]") = None.
Proof. reflexivity. Qed.
Example JSON_parse_ex5 : JSON_parse (js "nul") = None.
Proof. reflexivity. Qed.
Example stringify_ex :
  JSON_stringify_2 [(js "a", PString [34; 7; 55357; 56832; 55357]); (js "n", PNumber 12)]
  = [123; 10; 32; 32] ++ (js "'a': '\'\u0007" // 39 ~> 34) ++ [55357; 56832]
    ++ (js "\ud83d'," // 39 ~> 34) ++ [10; 32; 32]
    ++ (js "'n': 12" // 39 ~> 34) ++ [10; 125].
Proof. reflexivity. Qed.

(* ------------------------------------------------------------------ *)
(** ** Decimal digits *)

Lemma is_digit_spec c : is_digit c = true <-> 48 <= c <= 57.
Proof.
  unfold is_digit. rewrite andb_true_iff, !N.leb_le. tauto.
Qed.

Lemma is_digit_low d : d < 10 -> is_digit (48 + d) = true.
Proof. intros H. apply is_digit_spec. lia. Qed.

Lemma digits_aux_all_digits f : forall n, Forall (fun c => is_digit c = true) (digits_aux f n).
Proof.
  induction f as [|f IH]; intros n; simpl.
  - constructor.
  - destruct (N.ltb_spec n 10).
    + constructor; [apply is_digit_low; assumption | constructor].
    + apply Forall_app. split; [apply IH|].
      constructor; [|constructor].
      apply is_digit_low. apply N.mod_lt. lia.
Qed.

Lemma parse_digits_all acc s :
  Forall (fun c => is_digit c = true) s ->
  parse_digits acc s = (fold_left digit_step s acc, []).
Proof.
  intros H. revert acc. induction H as [|c s Hc _ IH]; intros acc; simpl.
  - reflexivity.
  - rewrite Hc. apply IH.
Qed.

Lemma pow2_half (f : nat) n : n < 2 ^ N.of_nat (S f) -> n / 10 < 2 ^ N.of_nat f.
Proof.
  intros H. rewrite Nat2N.inj_succ, N.pow_succ_r' in H.
  apply N.Div0.div_lt_upper_bound. lia.
Qed.

Lemma digits_aux_value f : forall n,
  n < 2 ^ N.of_nat f -> fold_left digit_step (digits_aux f n) 0 = n.
Proof.
  induction f as [|f IH]; intros n Hn.
  - change (n < 1) in Hn. assert (n = 0) by lia. subst. reflexivity.
  - cbn [digits_aux]. destruct (N.ltb_spec n 10) as [Hlt|Hge].
    + cbn [fold_left]. unfold digit_step. lia.
    + rewrite fold_left_app. cbn [fold_left].
      rewrite (IH (n / 10) (pow2_half f n Hn)).
      unfold digit_step.
      rewrite (N.add_comm 48), N.add_sub. symmetry. apply N.div_mod. discriminate.
Qed.

Lemma log2_bound n : n < 2 ^ N.of_nat (S (N.to_nat (N.log2 n))).
Proof.
  rewrite Nat2N.inj_succ, N2Nat.id.
  destruct (N.eq_dec n 0) as [->|Hn]; [reflexivity|].
  apply N.log2_spec. lia.
Qed.

Lemma N_digits_value n : fold_left digit_step (N_digits n) 0 = n.
Proof. apply digits_aux_value, log2_bound. Qed.

Lemma digits_aux_nonempty f n : digits_aux (S f) n <> [].
Proof.
  cbn [digits_aux]. destruct (n <? 10); [discriminate|].
  intros H. apply app_eq_nil in H. destruct H as [_ H]. discriminate.
Qed.

Lemma N_digits_head n : exists c t, N_digits n = c :: t /\ is_digit c = true.
Proof.
  pose proof (digits_aux_all_digits (S (N.to_nat (N.log2 n))) n) as HF.
  pose proof (digits_aux_nonempty (N.to_nat (N.log2 n)) n) as HN.
  unfold N_digits. destruct (digits_aux _ n) as [|c t]; [congruence|].
  exists c, t. split; [reflexivity|]. now inversion HF.
Qed.

Lemma digit_not_space c : is_digit c = true -> is_js_space c = false.
Proof.
  intros H. apply is_digit_spec in H. unfold is_js_space.
  repeat (apply orb_false_intro);
    try (apply N.eqb_neq; lia).
  apply andb_false_iff. left. apply N.leb_gt. lia.
Qed.

(** [parseInt] reads back the decimal text of an integer. *)
Lemma parseInt_toString z : parseInt (Number_toString z) = Some z.
Proof.
  unfold Number_toString.
  destruct (N_digits_head (Z.abs_N z)) as (c & t & Heq & Hc).
  pose proof (digits_aux_all_digits (S (N.to_nat (N.log2 (Z.abs_N z)))) (Z.abs_N z)) as HF.
  fold (N_digits (Z.abs_N z)) in HF.
  pose proof (N_digits_value (Z.abs_N z)) as HV.
  pose proof (is_digit_spec c) as Hr. apply Hr in Hc as Hrange.
  destruct (Z.ltb_spec z 0) as [Hneg|Hpos].
  - unfold parseInt. cbn [trim_start]. change (is_js_space 45) with false. cbv iota.
    rewrite Heq, Hc, <- Heq.
    rewrite (parse_digits_all 0 _ HF). cbn [fst]. rewrite HV. f_equal. lia.
  - unfold parseInt. rewrite Heq. cbn [trim_start].
    rewrite (digit_not_space c Hc).
    assert (c <> 45 /\ c <> 43) as [H45 H43] by lia.
    destruct c as [|pc]; [lia|].
    do 6 (destruct pc as [pc|pc|]; try lia; try (exfalso; lia)).
    all: cbv iota; cbv beta.
    all: try rewrite Hc; rewrite <- ?Heq; rewrite ?(parse_digits_all 0 _ HF);
      cbn [fst]; rewrite ?HV; try (f_equal; lia).
Qed.

(* ------------------------------------------------------------------ *)
(** ** Strings *)

Lemma jsstring_eqb_eq a : forall b, jsstring_eqb a b = true <-> a = b.
Proof.
  induction a as [|x a IH]; intros [|y b]; simpl; split; intros H;
    try reflexivity; try discriminate.
  - apply andb_true_iff in H. destruct H as [Hx Hab].
    apply N.eqb_eq in Hx. apply IH in Hab. congruence.
  - inversion H; subst. rewrite N.eqb_refl. simpl. now apply IH.
Qed.

Lemma jsstring_eqb_refl a : jsstring_eqb a a = true.
Proof. now apply jsstring_eqb_eq. Qed.

Lemma remove_first_absent c s :
  Forall (fun x => x <> c) s -> remove_first c s = s.
Proof.
  induction 1 as [|x s Hx _ IH]; simpl.
  - reflexivity.
  - apply N.eqb_neq in Hx. rewrite Hx. now rewrite IH.
Qed.

Lemma toString_no_hash z : Forall (fun x => x <> 35) (Number_toString z).
Proof.
  assert (Hd : Forall (fun x => x <> 35) (N_digits (Z.abs_N z))).
  { eapply Forall_impl; [|apply digits_aux_all_digits].
    intros c Hc. apply is_digit_spec in Hc. lia. }
  unfold Number_toString. destruct (z <? 0)%Z; [constructor; [lia|]|]; exact Hd.
Qed.

(* ------------------------------------------------------------------ *)
(** ** The resolver *)

Lemma reference_number_bare n :
  reference_number (VString (Number_toString n)) = Some n.
Proof.
  unfold reference_number. cbn [ToString].
  rewrite remove_first_absent by apply toString_no_hash.
  apply parseInt_toString.
Qed.

Lemma reference_number_hash n :
  reference_number (VString (35 :: Number_toString n)) = Some n.
Proof.
  unfold reference_number. cbn [ToString remove_first].
  rewrite N.eqb_refl. apply parseInt_toString.
Qed.

(** A reference that reads as [n] resolves to the first profile of the
    fresh listing whose number is [n]. *)
Lemma resolve_found input n w w' L p :
  reference_number input = Some n ->
  fetches_listing w L w' ->
  find (fun q => (number q =? n)%Z) L = Some p ->
  resolveProfileId input w = (Returns (Some (resolved_of p)), w').
Proof.
  intros Hn (resp & d & Hget & Hs & Hd & HL) Hf.
  unfold resolveProfileId. rewrite Hn. unfold bind. rewrite Hget.
  unfold failed. rewrite Hs, Hd. cbn. rewrite HL, Hf. reflexivity.
Qed.

(** **** Claim C5.
    For an ordinal [n] of the current listing, the number [n], the bare string
    of [n] and the string "#n" resolve alike, and to the identifier (with name
    and region) of the profile of the listing whose number is [n]: the first
    one, which is the only one when ordinals are unique. *)
Theorem resolve_ordinal_forms (w w' : World) (L : list McpProfile) (n : Z) (p : McpProfile) :
  fetches_listing w L w' ->
  find (fun q => (number q =? n)%Z) L = Some p ->
  resolveProfileId (VNumber n) w = (Returns (Some (resolved_of p)), w')
  /\ resolveProfileId (VString (Number_toString n)) w = (Returns (Some (resolved_of p)), w')
  /\ resolveProfileId (VString (35 :: Number_toString n)) w
     = (Returns (Some (resolved_of p)), w')
  /\ resolved_id (resolved_of p) = id p /\ In p L /\ number p = n.
Proof.
  intros Hl Hf. repeat split.
  - now apply (resolve_found _ n w w' L p).
  - apply (resolve_found _ n w w' L p); auto using reference_number_bare.
  - apply (resolve_found _ n w w' L p); auto using reference_number_hash.
  - now apply find_some in Hf.
  - apply find_some in Hf. destruct Hf as [_ Hf]. now apply Z.eqb_eq in Hf.
Qed.

Lemma sample_fetches_listing f L other :
  fetches_listing (sample_world f L other) L
    (snd (api_get SMcpProfiles mcp_profiles_path [] (sample_world f L other))).
Proof.
  eexists. eexists. repeat split.
Qed.

Lemma resolve_ordinal_forms_witness :
  let w := sample_world NoFile sample_listing (ok_response JNull) in
  let w' := snd (api_get SMcpProfiles mcp_profiles_path [] w) in
  resolveProfileId (VNumber 2) w = (Returns (Some (resolved_of profile_b2)), w')
  /\ resolveProfileId (VString (js "2")) w = (Returns (Some (resolved_of profile_b2)), w')
  /\ resolveProfileId (VString (js "#2")) w = (Returns (Some (resolved_of profile_b2)), w')
  /\ resolved_id (resolved_of profile_b2) = js "b2"
  /\ In profile_b2 sample_listing /\ number profile_b2 = 2%Z.
Proof.
  intros w w'.
  exact (resolve_ordinal_forms w w' sample_listing 2 profile_b2
           (sample_fetches_listing NoFile sample_listing (ok_response JNull))
           eq_refl).
Defined.

(** When ordinals are unique in the listing, the profile found for [n] is
    the profile that carries [n]. *)
Lemma find_unique_number (L : list McpProfile) p :
  NoDup (map number L) -> In p L ->
  find (fun q => (number q =? number p)%Z) L = Some p.
Proof.
  induction L as [|q L IH]; intros Hnd Hin; [contradiction|].
  cbn [find]. inversion Hnd as [|? ? Hq HL]; subst.
  destruct Hin as [->|Hin].
  - now rewrite Z.eqb_refl.
  - destruct (Z.eqb_spec (number q) (number p)) as [E|_].
    + exfalso. apply Hq. rewrite E. now apply in_map.
    + now apply IH.
Qed.

(** **** Claim C2, as amended.
    An integer reference whose value is the ordinal of no profile of the fresh
    listing is not answered with null: the reference itself, as a string and
    with its '#' if it had one, comes back as the identifier, with empty name
    and region. *)
Theorem resolve_unlisted_number_is_passed_through
    (input : jsval) (n : Z) (w w' : World) (L : list McpProfile) :
  reference_number input = Some n ->
  fetches_listing w L w' ->
  find (fun q => (number q =? n)%Z) L = None ->
  resolveProfileId input w
  = (Returns (Some {| resolved_id := ToString input; resolved_name := [];
                      resolved_region := [] |}), w').
Proof.
  intros Hn (resp & d & Hget & Hs & Hd & HL) Hf.
  unfold resolveProfileId. rewrite Hn. unfold bind. rewrite Hget.
  unfold failed. rewrite Hs, Hd. cbn. rewrite HL, Hf. reflexivity.
Qed.

Lemma resolve_unlisted_number_witness :
  let w := sample_world NoFile sample_listing (ok_response JNull) in
  resolveProfileId (VString (js "#7")) w
  = (Returns (Some {| resolved_id := js "#7"; resolved_name := [];
                      resolved_region := [] |}),
     snd (api_get SMcpProfiles mcp_profiles_path [] w)).
Proof.
  intros w.
  exact (resolve_unlisted_number_is_passed_through (VString (js "#7")) 7 w _
           sample_listing eq_refl
           (sample_fetches_listing NoFile sample_listing (ok_response JNull))
           eq_refl).
Defined.

(** Claim C2 as the specification words it fails: the reference "7" reads as
    the integer 7, the listing fetched has the ordinals 1, 2 and 3 only, and
    the resolver returns the identifier "7" instead of null. *)
Lemma resolve_unlisted_number_counterexample :
  let w := sample_world NoFile sample_listing (ok_response JNull) in
  reference_number (VString (js "7")) = Some 7%Z
  /\ fetches_listing w sample_listing (snd (api_get SMcpProfiles mcp_profiles_path [] w))
  /\ find (fun q => (number q =? 7)%Z) sample_listing = None
  /\ fst (resolveProfileId (VString (js "7")) w) <> Returns None
  /\ fst (resolveProfileId (VString (js "7")) w)
     = Returns (Some {| resolved_id := js "7"; resolved_name := [];
                        resolved_region := [] |}).
Proof.
  intros w. split; [reflexivity|]. split; [apply sample_fetches_listing|].
  split; [reflexivity|]. split; [discriminate|reflexivity].
Qed.

(* ------------------------------------------------------------------ *)
(** ** What the remote calls leave alone *)

Ltac run_cases :=
  repeat match goal with
         | |- context [match ?x with _ => _ end] => destruct x eqn:?
         | |- context [if ?b then _ else _] => destruct b eqn:?
         end.

Lemma request_fs s r w res w' : request s r w = (res, w') -> fs w' = fs w.
Proof.
  unfold request, bind, fetch_json, logError, request_url, now_iso, ret. cbn.
  destruct (remote w (calls w ++ [r]) s) as [msg|ok code st b]; cbn.
  - intros H. inversion H. reflexivity.
  - destruct ok; cbn; intros H; inversion H; reflexivity.
Qed.

Lemma api_get_fs s e ps w res w' : api_get s e ps w = (res, w') -> fs w' = fs w.
Proof.
  unfold api_get. destruct (apiUrl_valid w).
  - apply request_fs.
  - intros H. now inversion H.
Qed.





Lemma resolveProfileId_fs input w res w' :
  resolveProfileId input w = (res, w') -> fs w' = fs w.
Proof.
  unfold resolveProfileId, bind, ret.
  destruct (reference_number input) as [n|].
  - destruct (api_get SMcpProfiles mcp_profiles_path [] w) as [[resp|e] w1] eqn:Hget.
    + apply api_get_fs in Hget. rewrite <- Hget.
      run_cases; intros H; inversion H; reflexivity.
    + apply api_get_fs in Hget. intros H. inversion H; subst. exact Hget.
  - intros H. now inversion H.
Qed.

(* ------------------------------------------------------------------ *)
(** ** [set_current_profile] *)

Lemma set_current_profile_reaches render args w w1 w2 r L :
  resolveProfileId (arg args (js "profile_id")) w = (Returns (Some r), w1) ->
  fetches_listing w1 L w2 ->
  call_tool render (js "set_current_profile") args w
  = try_catch
      (match find (fun q => jsstring_eqb (id q) (resolved_id r)) L with
       | None => ret (text_result (js "Error: Profile not found in your account"))
       | Some profile =>
           if negb (mcp_activated profile)
           then ret (text_result (not_activated_text profile))
           else if negb (status_is_ready (mcp_data_status profile))
           then ret (text_result (importing_warning_text profile))
           else
             t0 <- now_iso ;;
             writeContext {| profileId := id profile;
                             profileNumber := number profile;
                             profileName := name profile;
                             ctx_region := region profile;
                             setAt := t0 |} ;;;
             ret (text_result (context_set_text profile))
       end)
      (fun err => ret (text_result (js "Error: " ++ exn_message err))) w2.
Proof.
  intros Hres (resp & d & Hget & Hs & Hd & HL).
  unfold call_tool.
  change (tool_of_name (js "set_current_profile")) with (Some set_current_profile).
  cbv beta iota. unfold case_body, try_catch, bind at 1. rewrite Hres.
  unfold bind at 1. rewrite Hget. unfold failed. rewrite Hs, Hd. cbn [negb orb data_truthy].
  rewrite HL. reflexivity.
Qed.

(** **** Claim C4.
    When the profile that [set_current_profile] looks up has
    [mcp_activated = false], the tool answers with an error text and the
    context file is what it was before the call. *)
Theorem set_current_profile_not_activated
    (render : Tool -> Args -> json -> Result jsstring) (args : Args)
    (w w1 w2 : World) (r : Resolved) (L : list McpProfile) (p : McpProfile) :
  resolveProfileId (arg args (js "profile_id")) w = (Returns (Some r), w1) ->
  fetches_listing w1 L w2 ->
  find (fun q => jsstring_eqb (id q) (resolved_id r)) L = Some p ->
  mcp_activated p = false ->
  call_tool render (js "set_current_profile") args w
  = (Returns (text_result (not_activated_text p)), w2)
  /\ is_error_text (not_activated_text p) = true
  /\ fs w2 = fs w.
Proof.
  intros Hres Hl Hf Hflag. split; [|split].
  - rewrite (set_current_profile_reaches render args w w1 w2 r L Hres Hl).
    unfold try_catch. rewrite Hf, Hflag. reflexivity.
  - reflexivity.
  - destruct Hl as (resp & d & Hget & _).
    apply api_get_fs in Hget. apply resolveProfileId_fs in Hres. congruence.
Qed.

Lemma set_current_profile_not_activated_witness :
  let w := sample_world (Content (js "{}")) sample_listing (ok_response JNull) in
  let args := [(js "profile_id", VString (js "#1"))] in
  let w1 := snd (resolveProfileId (VString (js "#1")) w) in
  let w2 := snd (api_get SMcpProfiles mcp_profiles_path [] w1) in
  call_tool no_render (js "set_current_profile") args w
  = (Returns (text_result (not_activated_text profile_a1)), w2)
  /\ is_error_text (not_activated_text profile_a1) = true
  /\ fs w2 = fs w.
Proof.
  intros w args w1 w2.
  refine (set_current_profile_not_activated no_render args w w1 w2
            (resolved_of profile_a1) sample_listing profile_a1
            eq_refl _ eq_refl eq_refl).
  eexists. eexists. repeat split.
Defined.

(** The importing case: the warning is returned before the context is
    written. *)
Lemma set_current_profile_importing
    (render : Tool -> Args -> json -> Result jsstring) (args : Args)
    (w w1 w2 : World) (r : Resolved) (L : list McpProfile) (p : McpProfile) :
  resolveProfileId (arg args (js "profile_id")) w = (Returns (Some r), w1) ->
  fetches_listing w1 L w2 ->
  find (fun q => jsstring_eqb (id q) (resolved_id r)) L = Some p ->
  mcp_activated p = true ->
  status_is_ready (mcp_data_status p) = false ->
  call_tool render (js "set_current_profile") args w
  = (Returns (text_result (importing_warning_text p)), w2)
  /\ is_warning_text (importing_warning_text p) = true
  /\ fs w2 = fs w.
Proof.
  intros Hres Hl Hf Hflag Hst. split; [|split].
  - rewrite (set_current_profile_reaches render args w w1 w2 r L Hres Hl).
    unfold try_catch. rewrite Hf, Hflag, Hst. reflexivity.
  - reflexivity.
  - destruct Hl as (resp & d & Hget & _).
    apply api_get_fs in Hget. apply resolveProfileId_fs in Hres. congruence.
Qed.

(** **** Claim C1, at the failing input.
    Profile #3 of the sample listing is activated and still importing. Asked
    to make it current, the tool returns the warning text, and the context
    file, absent before the call, is absent after it: nothing was written, and
    a read of the context finds it unset. *)
Theorem set_current_profile_importing_writes_nothing :
  let w := sample_world NoFile sample_listing (ok_response JNull) in
  let out := call_tool no_render (js "set_current_profile")
               [(js "profile_id", VString (js "3"))] w in
  mcp_activated profile_c3 = true
  /\ status_is_ready (mcp_data_status profile_c3) = false
  /\ fst out = Returns (text_result (importing_warning_text profile_c3))
  /\ is_warning_text (importing_warning_text profile_c3) = true
  /\ file (fs (snd out)) = NoFile
  /\ fst (readContext (snd out)) = Returns None.
Proof.
  vm_compute. repeat split.
Qed.

(** The ready case of the end-to-end scenario: [set_current_profile("2")]
    succeeds and the context read back holds the identifier "b2". *)
Example scenario_set_current_profile_2 :
  let w := sample_world NoFile sample_listing (ok_response JNull) in
  let out := call_tool no_render (js "set_current_profile")
               [(js "profile_id", VString (js "2"))] w in
  fst out = Returns (text_result (context_set_text profile_b2))
  /\ is_success_text (context_set_text profile_b2) = true
  /\ option_map profileId
       (match fst (readContext (snd out)) with
        | Returns (Some v) => as_ProfileContext v
        | _ => None
        end) = Some (js "b2").
Proof.
  vm_compute. repeat split.
Qed.

(* ------------------------------------------------------------------ *)
(** ** [activate_mcp_profile] *)



(** The end-to-end scenario: activating ordinal 1 sends [profile_id: "a1"]. *)
Example scenario_activate_1 :
  let w := sample_world NoFile sample_listing (ok_response JNull) in
  calls (snd (call_tool no_render (js "activate_mcp_profile")
                [(js "number", VNumber 1)] w))
  = [ {| method := GET; path := mcp_profiles_path; query := []; body := None |};
      activate_request (js "a1") ].
Proof. reflexivity. Qed.

(* ------------------------------------------------------------------ *)
(** ** The dispatch *)

Lemma returns_text_ret t : returns_text (ret (text_result t)).
Proof. intros w r w' H. inversion H. now exists t. Qed.

Lemma returns_text_bind {A} (c : M A) (k : A -> M CallToolResult) :
  (forall a, returns_text (k a)) -> returns_text (bind c k).
Proof.
  intros Hk w r w'. unfold bind. destruct (c w) as [[a|e] w1].
  - apply Hk.
  - discriminate.
Qed.

Lemma returns_text_render_or_error render t args response fallback :
  returns_text (render_or_error render t args response fallback).
Proof.
  unfold render_or_error.
  destruct (failed (s := SJson) response); [apply returns_text_ret|].
  destruct (data response); [|apply returns_text_ret].
  apply returns_text_bind. intros a. apply returns_text_ret.
Qed.

Lemma returns_text_message_or_error response fe fb :
  returns_text (message_or_error response fe fb).
Proof.
  unfold message_or_error. destruct (negb (success response)); apply returns_text_ret.
Qed.

Lemma returns_text_with_profile args tail k :
  (forall p, returns_text (k p)) ->
  returns_text (with_profile_by_number args tail k).
Proof.
  intros Hk. unfold with_profile_by_number.
  apply returns_text_bind. intros resp.
  destruct (failed resp); [apply returns_text_ret|].
  destruct (data resp); [|apply returns_text_ret].
  destruct (find _ _); [apply Hk|apply returns_text_ret].
Qed.

Ltac text_cases :=
  repeat first
    [ apply returns_text_ret
    | apply returns_text_render_or_error
    | apply returns_text_message_or_error
    | apply returns_text_with_profile; intros ?
    | apply returns_text_bind; intros ?
    | match goal with
      | |- returns_text (match ?x with _ => _ end) => destruct x
      | |- returns_text (if ?b then _ else _) => destruct b
      end ].

Lemma case_body_returns_text render t args : returns_text (case_body render t args).
Proof.
  destruct t; unfold case_body; text_cases.
Qed.

(** **** Claim C9.
    Whatever the tool name and the arguments, and whatever the service, the
    file system and the rendering do, the handler of a tool call returns, and
    what it returns is one text item: the result of the case when the case
    returns, the text "Error: " followed by the message of the exception when
    the case throws, and the unknown-tool text when there is no such case. *)
Theorem call_tool_never_throws
    (render : Tool -> Args -> json -> Result jsstring)
    (name : jsstring) (args : Args) (w : World) :
  exists t w',
    call_tool render name args w = (Returns (text_result t), w')
    /\ match tool_of_name name with
       | Some tl =>
           match case_body render tl args w with
           | (Returns r, w1) => r = text_result t /\ w' = w1
           | (Throws e, w1) => t = js "Error: " ++ exn_message e /\ w' = w1
           end
       | None => t = js "Unknown tool: " ++ name /\ w' = w
       end.
Proof.
  unfold call_tool, try_catch.
  destruct (tool_of_name name) as [tl|].
  - destruct (case_body render tl args w) as [[r|e] w1] eqn:Hb.
    + destruct (case_body_returns_text render tl args w r w1 Hb) as [t ->].
      exists t, w1. repeat split.
    + exists (js "Error: " ++ exn_message e), w1. repeat split.
  - exists (js "Unknown tool: " ++ name), w. repeat split.
Qed.

(** A call that does throw inside: the base URL of the configuration is no
    URL, and the answer is the text of the TypeError. *)
Example call_tool_catches_invalid_url :
  let w := sample_world NoFile sample_listing (ok_response JNull) in
  let w_bad := {| fs := fs w; remote := remote w; calls := []; log := [];
                  clock := clock w; ticks := 0; apiUrl := js "ppcgpt";
                  apiUrl_valid := false |} in
  fst (case_body no_render list_mcp_profiles [] w_bad) = Throws (JsError (js "Invalid URL"))
  /\ fst (call_tool no_render (js "list_mcp_profiles") [] w_bad)
     = Returns (text_result (js "Error: Invalid URL")).
Proof. split; reflexivity. Qed.

Lemma tool_of_name_unregistered nm :
  ~ In nm (map tool_name tools) -> tool_of_name nm = None.
Proof.
  intros Hn. unfold tool_of_name.
  destruct (find _ tools) as [t|] eqn:Hf; [|reflexivity].
  apply find_some in Hf. destruct Hf as [Hin Heq].
  apply jsstring_eqb_eq in Heq. subst nm.
  exfalso. apply Hn. now apply in_map.
Qed.

(** **** Claim C10.
    A name that is none of the seventeen registered ones gets the text
    "Unknown tool: " followed by the name, as an ordinary result; the world is
    left as it was: no request is sent, nothing is written, nothing is
    logged. *)
Theorem call_tool_unknown_name
    (render : Tool -> Args -> json -> Result jsstring)
    (name : jsstring) (args : Args) (w : World) :
  ~ In name (map tool_name tools) ->
  call_tool render name args w
  = (Returns (text_result (js "Unknown tool: " ++ name)), w).
Proof.
  intros Hn. unfold call_tool, try_catch.
  now rewrite (tool_of_name_unregistered name Hn).
Qed.

Lemma not_in_names (nm : jsstring) :
  forallb (fun t => negb (jsstring_eqb nm (tool_name t))) tools = true ->
  ~ In nm (map tool_name tools).
Proof.
  intros H Hin. apply in_map_iff in Hin. destruct Hin as (t & Ht & Hin).
  rewrite forallb_forall in H. specialize (H t Hin).
  subst nm. now rewrite jsstring_eqb_refl in H.
Qed.

Lemma call_tool_unknown_name_witness :
  let w := sample_world (Content (js "{}")) sample_listing (ok_response JNull) in
  call_tool no_render (js "delete_profile") [(js "number", VNumber 1)] w
  = (Returns (text_result (js "Unknown tool: delete_profile")), w).
Proof.
  intros w.
  exact (call_tool_unknown_name no_render (js "delete_profile")
           [(js "number", VNumber 1)] w
           (not_in_names (js "delete_profile") eq_refl)).
Defined.

(* ------------------------------------------------------------------ *)
(** ** The not-ready answer *)

(** In [index.ts] an answer without [data] ends in the error text, whatever
    its [data_not_ready], [message] and [estimated_minutes] are. *)
Lemma render_or_error_without_data render t args (response : ApiResponse json) fallback :
  data response = None ->
  render_or_error render t args response fallback
  = ret (text_result (js "Error: " ++ or_default (error response) fallback)).
Proof.
  intros Hd. unfold render_or_error. rewrite Hd.
  destruct (failed _); reflexivity.
Qed.

(** **** Claim C3, at the failing input.
    The service answers [{ data_not_ready: true, message: "Data import in
    progress", estimated_minutes: 5 }] with status 200. [get_performance],
    [get_campaign_performance] and [list_campaigns] of [index.ts] each return
    the generic error text, without the message and without the estimate; the
    [get_performance] of [tools/reports.ts] renders the same answer with its
    estimate. *)
Theorem not_ready_answer_rendered_as_error :
  let answer := not_ready_response (js "Data import in progress") (Val 5%Z) in
  let w := sample_world NoFile sample_listing answer in
  let args := [(js "profile_id", VString (js "b2"));
               (js "start_date", VString (js "2026-01-01"));
               (js "end_date", VString (js "2026-01-05"))] in
  data_not_ready answer = true
  /\ fst (call_tool no_render (js "get_performance") args w)
     = Returns (text_result (js "Error: Failed to fetch performance"))
  /\ fst (call_tool no_render (js "get_campaign_performance") args w)
     = Returns (text_result (js "Error: Failed to fetch campaign performance"))
  /\ fst (call_tool no_render (js "list_campaigns") args w)
     = Returns (text_result (js "Error: Failed to fetch campaigns"))
  /\ fst (ToolsReports.get_performance_tool no_render args w)
     = Returns (text_result
                  (js "**Data Not Yet Available**" ++ nl ++ nl
                   ++ js "Data import in progress" ++ nl ++ nl
                   ++ js "Estimated time: ~5 minutes.")).
Proof.
  vm_compute. repeat split.
Qed.

(* ------------------------------------------------------------------ *)
(** ** The parser on the text of [JSON.stringify] *)

Lemma run_app a : forall ps b,
  run ps (a ++ b) = match run ps a with
                    | Some ps' => run ps' b
                    | None => None
                    end.
Proof.
  induction a as [|c a IH]; intros ps b; cbn [run app].
  - reflexivity.
  - destruct (step ps c); [apply IH|reflexivity].
Qed.

Lemma list_ind_pairs {A} (P : list A -> Prop) :
  P [] -> (forall a, P [a]) ->
  (forall a b l, P l -> P (b :: l) -> P (a :: b :: l)) ->
  forall l, P l.
Proof.
  intros H0 H1 H2 l.
  enough (H : P l /\ forall a, P (a :: l)) by apply H.
  induction l as [|b l [IHl IHc]]; split; auto.
Qed.

(** *** Hexadecimal escapes *)

Lemma hex_digit_value h : h < 16 -> hex_val (hex_digit h) = Some h.
Proof.
  intros H.
  assert (E : h = 0 \/ h = 1 \/ h = 2 \/ h = 3 \/ h = 4 \/ h = 5 \/ h = 6 \/ h = 7
              \/ h = 8 \/ h = 9 \/ h = 10 \/ h = 11 \/ h = 12 \/ h = 13 \/ h = 14
              \/ h = 15) by lia.
  repeat (destruct E as [->|E]; [reflexivity|]). subst. reflexivity.
Qed.

Lemma hex4_value c :
  c < 65536 ->
  16 * (16 * (16 * (16 * 0 + c / 4096 mod 16) + c / 256 mod 16) + c / 16 mod 16)
  + c mod 16 = c.
Proof.
  intros H.
  change 4096 with (16 * 256) at 1. change 256 with (16 * 16).
  rewrite <- !N.Div0.div_div.
  set (a := c / 16). set (b := a / 16). set (d := b / 16).
  pose proof (N.div_mod c 16 ltac:(discriminate)) as H0. fold a in H0.
  pose proof (N.div_mod a 16 ltac:(discriminate)) as H1. fold b in H1.
  pose proof (N.div_mod b 16 ltac:(discriminate)) as H2. fold d in H2.
  assert (Hd : d < 16).
  { unfold d, b, a. rewrite !N.Div0.div_div.
    apply N.Div0.div_lt_upper_bound. exact H. }
  rewrite (N.mod_small d 16 Hd).
  generalize dependent (c mod 16). generalize dependent (a mod 16).
  generalize dependent (b mod 16). intros. lia.
Qed.

Lemma mod16_lt x : x mod 16 < 16.
Proof. apply N.mod_lt. discriminate. Qed.

Lemma run_unicode_escape k acc st c :
  c < 65536 ->
  run (MString k acc, st) (unicode_escape c) = Some (MString k (c :: acc), st).
Proof.
  intros Hc. unfold unicode_escape. cbn [run].
  change (step (MString k acc, st) 92) with (Some (MEscape k acc, st)). cbv iota.
  change (step (MEscape k acc, st) 117) with (Some (MUnicode k acc 0 0, st)). cbv iota.
  unfold step at 1. rewrite (hex_digit_value _ (mod16_lt _)). cbv iota.
  unfold step at 1. rewrite (hex_digit_value _ (mod16_lt _)). cbv iota.
  unfold step at 1. rewrite (hex_digit_value _ (mod16_lt _)). cbv iota.
  unfold step at 1. rewrite (hex_digit_value _ (mod16_lt _)). cbv iota.
  rewrite (hex4_value c Hc). reflexivity.
Qed.

(** *** Strings *)

Lemma step_string_plain k acc st c :
  c <> 34 -> c <> 92 -> 32 <= c ->
  step (MString k acc, st) c = Some (MString k (c :: acc), st).
Proof.
  intros H1 H2 H3. unfold step.
  apply N.eqb_neq in H1, H2. apply N.ltb_ge in H3.
  now rewrite H1, H2, H3.
Qed.

Lemma run_quote_unit k acc st c :
  run (MString k acc, st) (quote_unit c) = Some (MString k (c :: acc), st).
Proof.
  unfold quote_unit.
  repeat match goal with
         | |- context [if ?x =? ?y then _ else _] =>
             destruct (N.eqb_spec x y) as [->|?]; [reflexivity|]
         end.
  destruct (N.ltb_spec c 32).
  - apply run_unicode_escape. lia.
  - cbn [run]. rewrite step_string_plain by assumption. reflexivity.
Qed.

Lemma surrogate_bound c :
  is_high_surrogate c = true \/ is_low_surrogate c = true -> c < 65536.
Proof.
  unfold is_high_surrogate, is_low_surrogate.
  rewrite !andb_true_iff, !N.leb_le. lia.
Qed.

Lemma step_string_surrogate k acc st c :
  is_high_surrogate c = true \/ is_low_surrogate c = true ->
  step (MString k acc, st) c = Some (MString k (c :: acc), st).
Proof.
  unfold is_high_surrogate, is_low_surrogate.
  rewrite !andb_true_iff, !N.leb_le. intros H.
  apply step_string_plain; lia.
Qed.

(** The body of a quoted string is read back code unit by code unit. *)
Lemma run_quote_body k st s : forall acc,
  run (MString k acc, st) (quote_body s) = Some (MString k (rev s ++ acc), st).
Proof.
  induction s as [|c|c d t IHt IHdt] using list_ind_pairs; intros acc.
  - reflexivity.
  - cbn [quote_body rev app].
    destruct (is_high_surrogate c) eqn:Hh.
    + apply run_unicode_escape, surrogate_bound. now left.
    + destruct (is_low_surrogate c) eqn:Hl.
      * rewrite app_nil_r. apply run_unicode_escape, surrogate_bound. now right.
      * rewrite app_nil_r. apply run_quote_unit.
  - change (quote_body (c :: d :: t)) with
      (if is_high_surrogate c then
         if is_low_surrogate d then c :: d :: quote_body t
         else unicode_escape c ++ quote_body (d :: t)
       else if is_low_surrogate c then unicode_escape c ++ quote_body (d :: t)
       else quote_unit c ++ quote_body (d :: t)).
    assert (E1 : rev (c :: d :: t) ++ acc = rev (d :: t) ++ (c :: acc)).
    { cbn [rev]. now rewrite <- !app_assoc. }
    assert (E2 : rev (c :: d :: t) ++ acc = rev t ++ (d :: c :: acc)).
    { cbn [rev]. now rewrite <- !app_assoc. }
    destruct (is_high_surrogate c) eqn:Hh.
    + destruct (is_low_surrogate d) eqn:Hl.
      * cbn [run]. rewrite step_string_surrogate by now left. cbv iota.
        rewrite step_string_surrogate by now right. cbv iota.
        rewrite IHt. now rewrite E2.
      * rewrite run_app, run_unicode_escape by (apply surrogate_bound; now left).
        rewrite IHdt. now rewrite E1.
    + destruct (is_low_surrogate c) eqn:Hl.
      * rewrite run_app, run_unicode_escape by (apply surrogate_bound; now right).
        rewrite IHdt. now rewrite E1.
      * rewrite run_app, run_quote_unit. rewrite IHdt. now rewrite E1.
Qed.

(** *** Numbers *)

Lemma small_digit_cases d :
  1 <= d <= 9 ->
  d = 1 \/ d = 2 \/ d = 3 \/ d = 4 \/ d = 5 \/ d = 6 \/ d = 7 \/ d = 8 \/ d = 9.
Proof. lia. Qed.

Lemma step_first_digit st d :
  1 <= d <= 9 ->
  step (MValue, st) (48 + d) = Some (MNumber (mkNum false NInt d 0 false 0), st).
Proof.
  intros H. apply small_digit_cases in H.
  repeat (destruct H as [->|H]; [reflexivity|]). subst. reflexivity.
Qed.

Lemma step_first_digit_signed st d :
  1 <= d <= 9 ->
  step (MNumber (mkNum true NSign 0 0 false 0), st) (48 + d)
  = Some (MNumber (mkNum true NInt d 0 false 0), st).
Proof.
  intros H. apply small_digit_cases in H.
  repeat (destruct H as [->|H]; [reflexivity|]). subst. reflexivity.
Qed.

Lemma is_number_char_digit c : is_digit c = true -> is_number_char c = true.
Proof. intros H. unfold is_number_char. now rewrite H. Qed.

Lemma step_next_digit b st m d :
  d < 10 ->
  step (MNumber (mkNum b NInt m 0 false 0), st) (48 + d)
  = Some (MNumber (mkNum b NInt (10 * m + d) 0 false 0), st).
Proof.
  intros H. unfold step.
  rewrite (is_number_char_digit _ (is_digit_low d H)).
  unfold step_number. rewrite (is_digit_low d H). cbn [phase neg mant].
  now rewrite (N.add_comm 48), N.add_sub.
Qed.

(** The digits of a positive integer, read from a state that takes a first
    digit as [ps0] does. *)
Lemma run_digits_aux b st ps0 :
  (forall d, 1 <= d <= 9 ->
             step ps0 (48 + d) = Some (MNumber (mkNum b NInt d 0 false 0), st)) ->
  forall f n, 0 < n -> n < 2 ^ N.of_nat f ->
  run ps0 (digits_aux f n) = Some (MNumber (mkNum b NInt n 0 false 0), st).
Proof.
  intros Hfirst. induction f as [|f IH]; intros n Hpos Hn.
  - change (n < 1) in Hn. lia.
  - cbn [digits_aux]. destruct (N.ltb_spec n 10) as [Hlt|Hge].
    + cbn [run]. rewrite Hfirst by lia. reflexivity.
    + rewrite run_app.
      assert (Hq : 0 < n / 10).
      { apply N.div_str_pos. lia. }
      rewrite (IH (n / 10) Hq (pow2_half f n Hn)).
      cbn [run]. rewrite step_next_digit by (apply N.mod_lt; discriminate).
      now rewrite <- (N.div_mod n 10) by discriminate.
Qed.

Lemma run_N_digits b st ps0 n :
  (forall d, 1 <= d <= 9 ->
             step ps0 (48 + d) = Some (MNumber (mkNum b NInt d 0 false 0), st)) ->
  0 < n ->
  run ps0 (N_digits n) = Some (MNumber (mkNum b NInt n 0 false 0), st).
Proof.
  intros Hfirst Hpos. apply (run_digits_aux b st ps0 Hfirst); [exact Hpos|].
  apply log2_bound.
Qed.

Lemma step_number_end ns st c :
  is_number_char c = false -> num_complete ns = true ->
  step (MNumber ns, st) c
  = (let '(m', st') := deliver (num_value ns) st in step_after m' st' c).
Proof.
  intros Hc Hn. unfold step. now rewrite Hc, Hn.
Qed.

Lemma num_value_int b n :
  0 < n ->
  num_value (mkNum b NInt n 0 false 0)
  = JNumber (if b then (- Z.of_N n)%Z else Z.of_N n) 0.
Proof.
  intros Hn. unfold num_value, normalize. cbn [neg mant eneg expo scale].
  change (Z.of_N 0 - Z.of_N 0)%Z with 0%Z.
  assert (Hz : ((if b then (- Z.of_N n)%Z else Z.of_N n) =? 0)%Z = false).
  { apply Z.eqb_neq. destruct b; lia. }
  rewrite Hz. cbn [Z.leb Z.compare]. cbv iota.
  change (10 ^ 0)%Z with 1%Z. now rewrite Z.mul_1_r.
Qed.

(** An integer printed by [Number_toString] and followed by a code unit that
    no number holds is read as that integer. *)
Lemma run_number z st c rest :
  is_number_char c = false ->
  run (MValue, st) (Number_toString z ++ c :: rest)
  = (let '(m', st') := deliver (JNumber z 0) st in
     match step_after m' st' c with
     | Some ps => run ps rest
     | None => None
     end).
Proof.
  intros Hc. unfold Number_toString.
  destruct (Z.ltb_spec z 0) as [Hneg|Hpos].
  - cbn [app run].
    change (step (MValue, st) 45)
      with (Some (MNumber (mkNum true NSign 0 0 false 0), st)). cbv iota.
    rewrite run_app.
    rewrite (run_N_digits true st _ (Z.abs_N z) (step_first_digit_signed st)) by lia.
    cbn [run]. rewrite step_number_end by (auto; reflexivity).
    rewrite num_value_int by lia.
    replace (- Z.of_N (Z.abs_N z))%Z with z by lia.
    destruct (deliver (JNumber z 0) st) as [m' st']. reflexivity.
  - destruct (Z.eq_dec z 0) as [->|Hnz].
    + cbn [Z.abs_N]. change (N_digits 0) with [48]. cbn [app run].
      change (step (MValue, st) 48)
        with (Some (MNumber (mkNum false NZero 0 0 false 0), st)). cbv iota.
      rewrite step_number_end by (auto; reflexivity).
      change (num_value (mkNum false NZero 0 0 false 0)) with (JNumber 0 0).
      destruct (deliver (JNumber 0 0) st) as [m' st']. reflexivity.
    + rewrite run_app.
      rewrite (run_N_digits false st _ (Z.abs_N z) (step_first_digit st)) by lia.
      cbn [run]. rewrite step_number_end by (auto; reflexivity).
      rewrite num_value_int by lia.
      replace (Z.of_N (Z.abs_N z)) with z by lia.
      destruct (deliver (JNumber z 0) st) as [m' st']. reflexivity.
Qed.

(** *** Objects of strings and integers *)

Lemma run_string_value P key st s c rest :
  run (MString SKValue [], FObject P key :: st) (quote_body s ++ 34 :: c :: rest)
  = match step_after (MAfterMember ((key, JString s) :: P)) st c with
    | Some ps => run ps rest
    | None => None
    end.
Proof.
  rewrite run_app, run_quote_body, app_nil_r. cbn [run].
  change (step (MString SKValue (rev s), FObject P key :: st) 34)
    with (Some (MAfterMember ((key, JString (rev (rev s))) :: P), st)).
  cbv iota. rewrite rev_involutive. reflexivity.
Qed.

(** One member, up to the code unit [c] that follows it. *)
Lemma run_member kv P st ps0 c rest :
  step ps0 34 = Some (MString (SKKey P) [], st) ->
  is_number_char c = false ->
  run ps0 (stringify_member kv ++ c :: rest)
  = match step_after (MAfterMember ((fst kv, prim_json (snd kv)) :: P)) st c with
    | Some ps => run ps rest
    | None => None
    end.
Proof.
  intros H0 Hc. destruct kv as [k v]. unfold stringify_member, QuoteJSONString.
  cbn [fst snd app]. rewrite <- !app_assoc. cbn [run]. rewrite H0.
  rewrite run_app, run_quote_body, app_nil_r. cbn [app run].
  change (step (MString (SKKey P) (rev k), st) 34)
    with (Some (MColon P (rev (rev k)), st)). cbv iota.
  rewrite rev_involutive.
  change (step (MColon P k, st) 58) with (Some (MValue, FObject P k :: st)). cbv iota.
  change (step (MValue, FObject P k :: st) 32) with (Some (MValue, FObject P k :: st)).
  cbv iota.
  destruct v as [s|z]; cbn [stringify_prim prim_json].
  - unfold QuoteJSONString. cbn [app run]. rewrite <- app_assoc. cbn [app].
    change (step (MValue, FObject P k :: st) 34)
      with (Some (MString SKValue [], FObject P k :: st)). cbv iota.
    apply run_string_value.
  - rewrite (run_number z (FObject P k :: st) c rest Hc). reflexivity.
Qed.

Lemma run_members l : forall kv P st ps0 rest,
  step ps0 34 = Some (MString (SKKey P) [], st) ->
  run ps0 (join [44; 10; 32; 32] (map stringify_member (kv :: l)) ++ 10 :: 125 :: rest)
  = run (deliver (JObject (rev P ++ map member_json (kv :: l))) st) rest.
Proof.
  induction l as [|kv2 l IH]; intros kv P st ps0 rest H0.
  - cbn [map join]. rewrite (run_member kv P st ps0 10 _ H0 eq_refl).
    reflexivity.
  - change (join [44; 10; 32; 32] (map stringify_member (kv :: kv2 :: l)))
      with (stringify_member kv ++ [44; 10; 32; 32]
              ++ join [44; 10; 32; 32] (map stringify_member (kv2 :: l))).
    rewrite <- !app_assoc. cbn [app].
    rewrite (run_member kv P st ps0 44 _ H0 eq_refl).
    change (step_after (MAfterMember ((fst kv, prim_json (snd kv)) :: P)) st 44)
      with (Some (MObjectKey ((fst kv, prim_json (snd kv)) :: P), st)).
    cbv iota. cbn [run].
    change (step (MObjectKey ((fst kv, prim_json (snd kv)) :: P), st) 10)
      with (Some (MObjectKey ((fst kv, prim_json (snd kv)) :: P), st)). cbv iota.
    change (step (MObjectKey ((fst kv, prim_json (snd kv)) :: P), st) 32)
      with (Some (MObjectKey ((fst kv, prim_json (snd kv)) :: P), st)). cbv iota.
    change (step (MObjectKey ((fst kv, prim_json (snd kv)) :: P), st) 32)
      with (Some (MObjectKey ((fst kv, prim_json (snd kv)) :: P), st)). cbv iota.
    refine (eq_trans (IH kv2 ((fst kv, prim_json (snd kv)) :: P) st
                        (MObjectKey ((fst kv, prim_json (snd kv)) :: P), st)
                        rest eq_refl) _).
    cbn [rev map]. rewrite <- app_assoc. reflexivity.
Qed.

(** [JSON.parse] reads back what [JSON.stringify] wrote. *)
Lemma JSON_parse_stringify props :
  JSON_parse (JSON_stringify_2 props) = Some (JObject (map member_json props)).
Proof.
  destruct props as [|kv l]; [reflexivity|].
  unfold JSON_parse, JSON_stringify_2. cbn [app run].
  change (step (MValue, []) 123) with (Some (MObjectStart, @nil frame)). cbv iota.
  change (step (MObjectStart, []) 10) with (Some (MObjectStart, @nil frame)). cbv iota.
  change (step (MObjectStart, []) 32) with (Some (MObjectStart, @nil frame)). cbv iota.
  change (step (MObjectStart, []) 32) with (Some (MObjectStart, @nil frame)). cbv iota.
  refine (eq_trans (f_equal (fun o => match o with
                                       | Some ps => finish ps
                                       | None => None
                                       end)
                      (run_members l kv [] [] (MObjectStart, []) [] eq_refl)) _).
  reflexivity.
Qed.

(** *** What the file keeps of the text *)

Lemma utf8_stored_plain P rest :
  Forall no_surrogate P -> utf8_stored (P ++ rest) = P ++ utf8_stored rest.
Proof.
  induction 1 as [|c P [Hh Hl] _ IH]; cbn [app utf8_stored].
  - reflexivity.
  - now rewrite Hh, Hl, IH.
Qed.

Lemma ascii_no_surrogate c : c < 128 -> no_surrogate c.
Proof.
  intros H. unfold no_surrogate, is_high_surrogate, is_low_surrogate.
  split; apply andb_false_iff; left; apply N.leb_gt; lia.
Qed.

Lemma hex_digit_ascii h : h < 16 -> hex_digit h < 128.
Proof. intros H. unfold hex_digit. destruct (h <? 10); lia. Qed.

Lemma unicode_escape_plain c : Forall no_surrogate (unicode_escape c).
Proof.
  unfold unicode_escape.
  repeat constructor; apply ascii_no_surrogate;
    try (apply hex_digit_ascii, mod16_lt); lia.
Qed.

Lemma quote_unit_plain c :
  is_high_surrogate c = false -> is_low_surrogate c = false ->
  Forall no_surrogate (quote_unit c).
Proof.
  intros Hh Hl. unfold quote_unit.
  repeat match goal with
         | |- context [if ?x =? ?y then _ else _] =>
             destruct (x =? y);
             [repeat constructor; apply ascii_no_surrogate; lia|]
         end.
  destruct (c <? 32); [apply unicode_escape_plain|].
  repeat constructor; assumption.
Qed.

Lemma utf8_stored_quote_body s : forall rest,
  utf8_stored (quote_body s ++ rest) = quote_body s ++ utf8_stored rest.
Proof.
  induction s as [|c|c d t IHt IHdt] using list_ind_pairs; intros rest.
  - reflexivity.
  - cbn [quote_body].
    destruct (is_high_surrogate c) eqn:Hh;
      [apply utf8_stored_plain, unicode_escape_plain|].
    destruct (is_low_surrogate c) eqn:Hl; rewrite ?app_nil_r;
      apply utf8_stored_plain;
      [apply unicode_escape_plain|now apply quote_unit_plain].
  - change (quote_body (c :: d :: t)) with
      (if is_high_surrogate c then
         if is_low_surrogate d then c :: d :: quote_body t
         else unicode_escape c ++ quote_body (d :: t)
       else if is_low_surrogate c then unicode_escape c ++ quote_body (d :: t)
       else quote_unit c ++ quote_body (d :: t)).
    destruct (is_high_surrogate c) eqn:Hh.
    + destruct (is_low_surrogate d) eqn:Hl.
      * cbn [app utf8_stored]. rewrite Hh, Hl. now rewrite IHt.
      * rewrite <- app_assoc, utf8_stored_plain by apply unicode_escape_plain.
        rewrite IHdt. now rewrite app_assoc.
    + destruct (is_low_surrogate c) eqn:Hl.
      * rewrite <- app_assoc, utf8_stored_plain by apply unicode_escape_plain.
        rewrite IHdt. now rewrite app_assoc.
      * rewrite <- app_assoc, utf8_stored_plain by now apply quote_unit_plain.
        rewrite IHdt. now rewrite app_assoc.
Qed.

Lemma toString_plain z : Forall no_surrogate (Number_toString z).
Proof.
  assert (Hd : Forall no_surrogate (N_digits (Z.abs_N z))).
  { eapply Forall_impl; [|apply digits_aux_all_digits].
    intros c Hc. apply is_digit_spec in Hc. apply ascii_no_surrogate. lia. }
  unfold Number_toString.
  destruct (z <? 0)%Z; [constructor; [now apply ascii_no_surrogate|]|]; exact Hd.
Qed.

Lemma utf8_stored_quoted s rest :
  utf8_stored (QuoteJSONString s ++ rest) = QuoteJSONString s ++ utf8_stored rest.
Proof.
  unfold QuoteJSONString. cbn [app utf8_stored].
  change (is_high_surrogate 34) with false. change (is_low_surrogate 34) with false.
  cbv iota. rewrite <- app_assoc, utf8_stored_quote_body. cbn [app utf8_stored].
  change (is_high_surrogate 34) with false. change (is_low_surrogate 34) with false.
  cbv iota. now rewrite <- app_assoc.
Qed.

Lemma utf8_stored_member kv rest :
  utf8_stored (stringify_member kv ++ rest) = stringify_member kv ++ utf8_stored rest.
Proof.
  destruct kv as [k v]. unfold stringify_member. cbn [fst snd].
  rewrite <- !app_assoc, utf8_stored_quoted. cbn [app utf8_stored].
  change (is_high_surrogate 58) with false. change (is_low_surrogate 58) with false.
  change (is_high_surrogate 32) with false. change (is_low_surrogate 32) with false.
  cbv iota. destruct v as [s|z]; cbn [stringify_prim].
  - now rewrite utf8_stored_quoted.
  - do 3 f_equal. apply utf8_stored_plain, toString_plain.
Qed.

Lemma utf8_stored_members l : forall rest,
  utf8_stored (join [44; 10; 32; 32] (map stringify_member l) ++ rest)
  = join [44; 10; 32; 32] (map stringify_member l) ++ utf8_stored rest.
Proof.
  induction l as [|kv l IH]; intros rest; [reflexivity|].
  destruct l as [|kv2 l].
  - cbn [map join]. apply utf8_stored_member.
  - change (join [44; 10; 32; 32] (map stringify_member (kv :: kv2 :: l)))
      with (stringify_member kv ++ [44; 10; 32; 32]
              ++ join [44; 10; 32; 32] (map stringify_member (kv2 :: l))).
    rewrite <- !app_assoc, utf8_stored_member.
    rewrite (utf8_stored_plain [44; 10; 32; 32])
      by (repeat constructor; now apply ascii_no_surrogate).
    now rewrite IH.
Qed.

(** The text of [JSON.stringify] has no lone surrogate: the file holds it as
    written. *)
Lemma utf8_stored_stringify props :
  utf8_stored (JSON_stringify_2 props) = JSON_stringify_2 props.
Proof.
  destruct props as [|kv l]; [reflexivity|].
  unfold JSON_stringify_2.
  rewrite (utf8_stored_plain [123; 10; 32; 32])
    by (repeat constructor; now apply ascii_no_surrogate).
  now rewrite utf8_stored_members.
Qed.

(* ------------------------------------------------------------------ *)
(** ** The working-context store *)

Lemma context_json_members c :
  context_json c = JObject (map member_json (context_props c)).
Proof. reflexivity. Qed.

Lemma as_ProfileContext_context_json c : as_ProfileContext (context_json c) = Some c.
Proof. destruct c. reflexivity. Qed.

Lemma writeContext_writable c w :
  writable (fs w) = true ->
  exists w1,
    writeContext c w = (Returns tt, w1)
    /\ fs w1 = {| dir_exists := true;
                  file := Content (JSON_stringify_2 (context_props c));
                  writable := true |}.
Proof.
  intros Hw.
  pose proof (utf8_stored_stringify (context_props c)) as Hu.
  unfold writeContext, try_catch, bind, ensureContextDir, existsSync_dir, mkdirSync,
    writeFileSync, logInfo, now_iso, bind, ret.
  generalize dependent (JSON_stringify_2 (context_props c)). intros t Hu.
  destruct (dir_exists (fs w)) eqn:Hd; cbn; rewrite Hw; cbn; rewrite ?Hd; cbn;
    rewrite Hu; eexists; split; reflexivity.
Qed.

Lemma readContext_content w t v :
  file (fs w) = Content t -> JSON_parse t = Some v ->
  readContext w = (Returns (match v with JNull => None | _ => Some v end), w).
Proof.
  intros Hf Hp.
  unfold readContext, try_catch, bind, existsSync_file, readFileSync, JSON_parse_M, ret.
  rewrite Hf. cbn [negb]. cbv beta iota. rewrite Hf. rewrite Hp. reflexivity.
Qed.

(** **** Claim C6.
    After a write of the context [c] that the file system accepts, the file
    holds the text of [JSON.stringify(c, null, 2)], and the next read returns
    the object of [c]: its [profileId], [profileNumber], [profileName],
    [region] and [setAt] are those of [c]. *)
Theorem write_then_read_context (c : ProfileContext) (w : World) :
  writable (fs w) = true ->
  exists w1,
    writeContext c w = (Returns tt, w1)
    /\ file (fs w1) = Content (JSON_stringify_2 (context_props c))
    /\ readContext w1 = (Returns (Some (context_json c)), w1)
    /\ as_ProfileContext (context_json c) = Some c.
Proof.
  intros Hw. destruct (writeContext_writable c w Hw) as (w1 & Hwrite & Hfs).
  exists w1. split; [exact Hwrite|]. split; [now rewrite Hfs|].
  split; [|apply as_ProfileContext_context_json].
  rewrite (readContext_content w1 (JSON_stringify_2 (context_props c)) (context_json c)).
  - reflexivity.
  - now rewrite Hfs.
  - rewrite context_json_members. apply JSON_parse_stringify.
Qed.

Lemma write_then_read_context_witness :
  let w := sample_world (Content (js "{oops")) sample_listing (ok_response JNull) in
  exists w1,
    writeContext awkward_context w = (Returns tt, w1)
    /\ file (fs w1) = Content (JSON_stringify_2 (context_props awkward_context))
    /\ readContext w1 = (Returns (Some (context_json awkward_context)), w1)
    /\ as_ProfileContext (context_json awkward_context) = Some awkward_context.
Proof.
  intros w. exact (write_then_read_context awkward_context w eq_refl).
Defined.

(** **** Claim C7.
    In every state of the world [readContext] returns; it leaves the file
    system as it was. With no file the result is unset and nothing else
    happens; with a file that cannot be read, or whose text is no JSON, the
    result is unset and the failure is logged; with a file whose text is JSON
    the result is the value parsed (unset when that value is null). *)
Theorem readContext_never_throws (w : World) :
  exists r w',
    readContext w = (Returns r, w')
    /\ fs w' = fs w
    /\ match file (fs w) with
       | NoFile => r = None /\ w' = w
       | Unreadable =>
           r = None
           /\ log w' = log w ++ [LogError (clock w (ticks w))
                                    (js "Failed to read context file")
                                    (Some (JsError (js "EACCES: permission denied, open")))]
       | Content t =>
           match JSON_parse t with
           | None =>
               r = None
               /\ log w' = log w ++ [LogError (clock w (ticks w))
                                        (js "Failed to read context file")
                                        (Some (JsError (js "Unexpected token in JSON")))]
           | Some v => r = match v with JNull => None | _ => Some v end /\ w' = w
           end
       end.
Proof.
  unfold readContext, try_catch, bind, existsSync_file, readFileSync, JSON_parse_M,
    logError, now_iso, throw, ret.
  destruct (file (fs w)) as [| |t] eqn:Hf; cbn.
  - eexists. eexists. repeat split.
  - rewrite Hf. cbn. eexists. eexists. repeat split.
  - rewrite Hf. cbn. destruct (JSON_parse t) as [v|]; cbn.
    + eexists. eexists. repeat split.
    + eexists. eexists. repeat split.
Qed.

(** A file cut short in the middle of a write is read as unset. *)
Example readContext_truncated_file :
  let w := sample_world (Content (js "{ 'profileId': 'b2', 'profileNum" // 39 ~> 34))
             sample_listing (ok_response JNull) in
  fst (readContext w) = Returns None.
Proof. reflexivity. Qed.

(** [clearContext] then [readContext]: unset; and a second [clearContext]
    changes nothing. *)
Example clear_then_read :
  let w := sample_world (Content (js "{}")) sample_listing (ok_response JNull) in
  let w1 := snd (clearContext w) in
  fst (readContext w1) = Returns None
  /\ clearContext w1 = (Returns tt, w1).
Proof. split; reflexivity. Qed.

(* ------------------------------------------------------------------ *)
(** ** The resolver when the listing cannot be fetched *)

(** The one way to null: the reference reads as a number and the listing
    fetch comes back without success or without data. *)
Lemma resolve_fetch_failure input n w w' resp :
  reference_number input = Some n ->
  api_get SMcpProfiles mcp_profiles_path [] w = (Returns resp, w') ->
  failed (s := SMcpProfiles) resp = true ->
  resolveProfileId input w = (Returns None, w').
Proof.
  intros Hn Hget Hfail. unfold resolveProfileId. rewrite Hn.
  unfold bind. rewrite Hget, Hfail. reflexivity.
Qed.

(** A reference that does not read as a number is returned as it is, and
    the service is not asked. *)
Lemma resolve_hash input w :
  reference_number input = None ->
  resolveProfileId input w
  = (Returns (Some {| resolved_id := ToString input; resolved_name := [];
                      resolved_region := [] |}), w).
Proof.
  intros Hn. unfold resolveProfileId. now rewrite Hn.
Qed.

(* ------------------------------------------------------------------ *)
(** * Further properties of the code *)

(** ** api-client.ts *)

Lemma or_default_nonempty a b : b <> [] -> or_default a b <> [].
Proof.
  intros Hb. destruct a as [[|c t]|]; cbn; try assumption. discriminate.
Qed.


Lemma request_calls s r w :
  exists resp w', request s r w = (Returns resp, w') /\ calls w' = calls w ++ [r].
Proof.
  unfold request, bind, fetch_json, logError, request_url, now_iso, ret. cbn.
  destruct (remote w (calls w ++ [r]) s) as [msg|ok code st b]; cbn.
  - eexists. eexists. split; reflexivity.
  - destruct ok; cbn; eexists; eexists; split; reflexivity.
Qed.

(** [request] returns whatever happens to the call, and records the call.
    An answer with a 2xx status comes back untouched; any other outcome, a
    status outside 2xx or a failure of the transport, comes back as
    [success: false] with an error message that is not empty, and with
    neither [data] nor the [data_not_ready] mark, whatever the body held. *)
Theorem request_flattens_failures (s : shape) (r : Request) (w : World) :
  exists resp w',
    request s r w = (Returns resp, w')
    /\ calls w' = calls w ++ [r]
    /\ fs w' = fs w
    /\ match remote w (calls w ++ [r]) s with
       | Http true _ _ b => resp = b
       | _ => success resp = false /\ data resp = None
              /\ data_not_ready resp = false
              /\ exists e, error resp = Some e /\ e <> []
       end.
Proof.
  unfold request, bind, fetch_json, logError, request_url, now_iso, ret. cbn.
  destruct (remote w (calls w ++ [r]) s) as [msg|ok code st b]; cbn.
  - eexists. eexists. repeat split. eexists. split; [reflexivity|discriminate].
  - destruct ok; cbn.
    + eexists. eexists. repeat split.
    + eexists. eexists. repeat split. eexists. split; [reflexivity|].
      apply or_default_nonempty. discriminate.
Qed.



(* ------------------------------------------------------------------ *)
(** ** The resolver, further *)

Lemma parse_digits_prefix s : forall acc c rest,
  Forall (fun x => is_digit x = true) s -> is_digit c = false ->
  parse_digits acc (s ++ c :: rest) = (fold_left digit_step s acc, c :: rest).
Proof.
  induction s as [|d s IH]; intros acc c rest Hs Hc; cbn [app parse_digits fold_left].
  - now rewrite Hc.
  - inversion Hs as [|? ? Hd Hs']; subst. rewrite Hd. now apply IH.
Qed.

Lemma digit_not_sign c : is_digit c = true -> c <> 45 /\ c <> 43.
Proof. intros H. apply is_digit_spec in H. lia. Qed.

Lemma parseInt_digit_first d t :
  is_digit d = true ->
  parseInt (d :: t) = Some (Z.of_N (fst (parse_digits 0 (d :: t)))).
Proof.
  intros Hd. unfold parseInt. cbn [trim_start]. rewrite (digit_not_space d Hd).
  pose proof (is_digit_spec d) as Hr. apply Hr in Hd as Hrange.
  destruct d as [|pd]; [lia|].
  do 6 (destruct pd as [pd|pd|]; try lia).
  all: cbv iota beta; rewrite Hd; reflexivity.
Qed.

Lemma parseInt_minus_digit d t :
  is_digit d = true ->
  parseInt (45 :: d :: t) = Some (- Z.of_N (fst (parse_digits 0 (d :: t))))%Z.
Proof.
  intros Hd. unfold parseInt. cbn [trim_start].
  change (is_js_space 45) with false. cbv iota beta. now rewrite Hd.
Qed.

(** [parseInt] stops at the first code unit that is no digit. *)
Lemma parseInt_toString_prefix z c rest :
  is_digit c = false -> parseInt (Number_toString z ++ c :: rest) = Some z.
Proof.
  intros Hc. unfold Number_toString.
  destruct (N_digits_head (Z.abs_N z)) as (d & t & Heq & Hd).
  pose proof (digits_aux_all_digits (S (N.to_nat (N.log2 (Z.abs_N z)))) (Z.abs_N z)) as HF.
  fold (N_digits (Z.abs_N z)) in HF.
  pose proof (N_digits_value (Z.abs_N z)) as HV.
  destruct (Z.ltb_spec z 0) as [Hneg|Hpos].
  - cbn [app]. rewrite Heq. cbn [app]. rewrite (parseInt_minus_digit d _ Hd).
    change (d :: t ++ c :: rest) with ((d :: t) ++ c :: rest). rewrite <- Heq.
    rewrite (parse_digits_prefix _ 0 c rest HF Hc). cbn [fst]. rewrite HV.
    f_equal. lia.
  - rewrite Heq. cbn [app]. rewrite (parseInt_digit_first d _ Hd).
    change (d :: t ++ c :: rest) with ((d :: t) ++ c :: rest). rewrite <- Heq.
    rewrite (parse_digits_prefix _ 0 c rest HF Hc). cbn [fst]. rewrite HV.
    f_equal. lia.
Qed.

(** A hash that opens with digits is read as the number those digits
    spell: it resolves to the profile of the listing with that ordinal, and
    is not taken for the hash it is. *)
Theorem resolve_digit_led_reference
    (z : Z) (c : codeunit) (rest : jsstring) (w w' : World)
    (L : list McpProfile) (p : McpProfile) :
  is_digit c = false ->
  Forall (fun x => x <> 35) (c :: rest) ->
  fetches_listing w L w' ->
  find (fun q => (number q =? z)%Z) L = Some p ->
  resolveProfileId (VString (Number_toString z ++ c :: rest)) w
  = (Returns (Some (resolved_of p)), w').
Proof.
  intros Hc Hrest Hl Hf.
  apply (resolve_found _ z w w' L p); [|exact Hl|exact Hf].
  unfold reference_number. cbn [ToString].
  rewrite remove_first_absent.
  - now apply parseInt_toString_prefix.
  - apply Forall_app. split; [apply toString_no_hash|exact Hrest].
Qed.

Lemma resolve_digit_led_reference_witness :
  let w := sample_world NoFile sample_listing (ok_response JNull) in
  resolveProfileId (VString (js "2f9a")) w
  = (Returns (Some (resolved_of profile_b2)),
     snd (api_get SMcpProfiles mcp_profiles_path [] w)).
Proof.
  intros w.
  refine (resolve_digit_led_reference 2 102 (js "9a") w _ sample_listing profile_b2
            eq_refl _ (sample_fetches_listing NoFile sample_listing (ok_response JNull))
            eq_refl).
  repeat constructor; discriminate.
Defined.

(** A reference whose first code unit is no digit, no sign, no white space
    and no '#' is returned as it is, with empty name and region, and the
    service is not asked: the world is untouched. *)
Theorem resolve_plain_hash (c : codeunit) (t : jsstring) (w : World) :
  is_digit c = false -> is_js_space c = false ->
  c <> 35 -> c <> 43 -> c <> 45 ->
  resolveProfileId (VString (c :: t)) w
  = (Returns (Some {| resolved_id := c :: t; resolved_name := [];
                      resolved_region := [] |}), w).
Proof.
  intros Hd Hs H35 H43 H45.
  assert (Hn : reference_number (VString (c :: t)) = None).
  { unfold reference_number. cbn [ToString remove_first].
    apply N.eqb_neq in H35. rewrite H35.
    unfold parseInt. cbn [trim_start]. rewrite Hs.
    destruct c as [|pc]; [reflexivity|].
    do 6 (destruct pc as [pc|pc|]; try congruence;
          try (cbv iota beta; rewrite Hd; reflexivity)). }
  unfold resolveProfileId. rewrite Hn. reflexivity.
Qed.

Lemma resolve_plain_hash_witness :
  let w := sample_world NoFile sample_listing (ok_response JNull) in
  resolveProfileId (VString (js "b2")) w
  = (Returns (Some {| resolved_id := js "b2"; resolved_name := [];
                      resolved_region := [] |}), w).
Proof.
  intros w.
  refine (resolve_plain_hash 98 (js "2") w eq_refl eq_refl _ _ _); discriminate.
Defined.

(** The resolver answers null in one case only: the reference reads as a
    number and the listing came back without success or without data. *)
Theorem resolve_null_iff_fetch_failed (input : jsval) (w w' : World) :
  resolveProfileId input w = (Returns None, w')
  <-> exists n resp,
        reference_number input = Some n
        /\ api_get SMcpProfiles mcp_profiles_path [] w = (Returns resp, w')
        /\ failed (s := SMcpProfiles) resp = true.
Proof.
  split.
  - unfold resolveProfileId, bind, ret.
    destruct (reference_number input) as [n|]; [|discriminate].
    destruct (api_get SMcpProfiles mcp_profiles_path [] w) as [[resp|e] w1] eqn:Hget;
      [|discriminate].
    destruct (failed resp) eqn:Hfail.
    + intros H. inversion H; subst. exists n, resp. auto.
    + unfold failed in Hfail. destruct (data resp) as [d|] eqn:Hd.
      * destruct (find _ (profiles d)); discriminate.
      * rewrite orb_true_r in Hfail. discriminate.
  - intros (n & resp & Hn & Hget & Hfail).
    unfold resolveProfileId, bind. rewrite Hn, Hget, Hfail. reflexivity.
Qed.

Lemma resolve_null_iff_fetch_failed_witness :
  let w := {| fs := {| dir_exists := true; file := NoFile; writable := true |};
              remote := fun _ s => FetchFails (js "fetch failed");
              calls := []; log := []; clock := fun _ => js "t"; ticks := 0;
              apiUrl := js "https://ppcgpt.getppcprophet.com";
              apiUrl_valid := true |} in
  resolveProfileId (VString (js "#2")) w
  = (Returns None, snd (api_get SMcpProfiles mcp_profiles_path [] w)).
Proof.
  intros w.
  apply (proj2 (resolve_null_iff_fetch_failed (VString (js "#2")) w _)).
  exists 2%Z. eexists. repeat split.
Defined.

(* ------------------------------------------------------------------ *)
(** ** The context store, further *)

(** [clearContext] returns in every state. With no file it does nothing at
    all; with a file it unlinks it, or, when the file system refuses, leaves
    the file system alone and logs the failure. *)
Theorem clearContext_never_throws (w : World) :
  exists w',
    clearContext w = (Returns tt, w')
    /\ match file (fs w) with
       | NoFile => w' = w
       | _ =>
           if writable (fs w)
           then file (fs w') = NoFile
                /\ log w' = log w ++ [LogInfo (clock w (ticks w)) (js "Context cleared")]
           else fs w' = fs w
                /\ log w' = log w ++ [LogError (clock w (ticks w))
                                         (js "Failed to clear context file")
                                         (Some (JsError (js "EACCES: permission denied, unlink")))]
       end.
Proof.
  unfold clearContext, try_catch, bind, existsSync_file, unlinkSync, logInfo, logError,
    now_iso, ret.
  destruct (file (fs w)) eqn:Hf; cbn.
  - eexists. split; reflexivity.
  - destruct (writable (fs w)); cbn; eexists; repeat split.
  - destruct (writable (fs w)); cbn; eexists; repeat split.
Qed.

(** After a [clearContext] that the file system accepts, a read finds the
    context unset, and a second [clearContext] changes nothing. *)
Theorem clear_then_read_unset (w : World) :
  writable (fs w) = true ->
  exists w1,
    clearContext w = (Returns tt, w1)
    /\ file (fs w1) = NoFile
    /\ readContext w1 = (Returns None, w1)
    /\ clearContext w1 = (Returns tt, w1).
Proof.
  intros Hw.
  unfold clearContext, readContext, try_catch, bind, existsSync_file, unlinkSync,
    logInfo, now_iso, ret.
  destruct (file (fs w)) eqn:Hf; cbn.
  - exists w. rewrite Hf. cbn. repeat split.
  - rewrite Hw. cbn. eexists. repeat split.
  - rewrite Hw. cbn. eexists. repeat split.
Qed.

Lemma clear_then_read_unset_witness :
  let w := sample_world (Content (js "{}")) sample_listing (ok_response JNull) in
  exists w1,
    clearContext w = (Returns tt, w1)
    /\ file (fs w1) = NoFile
    /\ readContext w1 = (Returns None, w1)
    /\ clearContext w1 = (Returns tt, w1).
Proof.
  intros w. exact (clear_then_read_unset w eq_refl).
Defined.

Lemma writeContext_unwritable c w :
  writable (fs w) = false ->
  exists w' e,
    writeContext c w = (Returns tt, w')
    /\ fs w' = fs w
    /\ log w' = log w ++ [LogError (clock w (ticks w))
                             (js "Failed to write context file") (Some e)].
Proof.
  intros Hw.
  unfold writeContext, try_catch, bind, ensureContextDir, existsSync_dir, mkdirSync,
    writeFileSync, logInfo, logError, now_iso, ret.
  generalize (JSON_stringify_2 (context_props c)). intros t.
  cbn. destruct (dir_exists (fs w)) eqn:Hd; cbn; rewrite Hw; cbn;
    eexists; eexists; repeat split.
Qed.

(** A write that the file system refuses does not throw: [writeContext]
    returns, the file system is what it was, and the failure is logged. *)
Theorem writeContext_failure_is_swallowed (c : ProfileContext) (w : World) :
  writable (fs w) = false ->
  exists w' e,
    writeContext c w = (Returns tt, w')
    /\ fs w' = fs w
    /\ log w' = log w ++ [LogError (clock w (ticks w))
                             (js "Failed to write context file") (Some e)].
Proof.
  exact (writeContext_unwritable c w).
Qed.

Lemma writeContext_failure_is_swallowed_witness :
  let w := {| fs := {| dir_exists := false; file := NoFile; writable := false |};
              remote := sample_remote sample_listing (ok_response JNull);
              calls := []; log := []; clock := fun _ => js "t"; ticks := 0;
              apiUrl := js "https://ppcgpt.getppcprophet.com";
              apiUrl_valid := true |} in
  exists w' e,
    writeContext awkward_context w = (Returns tt, w')
    /\ fs w' = fs w
    /\ log w' = log w ++ [LogError (clock w (ticks w))
                             (js "Failed to write context file") (Some e)].
Proof.
  intros w. exact (writeContext_failure_is_swallowed awkward_context w eq_refl).
Defined.

(** The store has one slot and the last write wins: after two writes the
    read returns the second context, and the directory exists. *)
Theorem last_write_wins (c1 c2 : ProfileContext) (w : World) :
  writable (fs w) = true ->
  exists w1 w2,
    writeContext c1 w = (Returns tt, w1)
    /\ writeContext c2 w1 = (Returns tt, w2)
    /\ dir_exists (fs w2) = true
    /\ readContext w2 = (Returns (Some (context_json c2)), w2)
    /\ as_ProfileContext (context_json c2) = Some c2.
Proof.
  intros Hw.
  destruct (writeContext_writable c1 w Hw) as (w1 & H1 & Hfs1).
  assert (Hw1 : writable (fs w1) = true) by now rewrite Hfs1.
  destruct (writeContext_writable c2 w1 Hw1) as (w2 & H2 & Hfs2).
  exists w1, w2. split; [exact H1|]. split; [exact H2|].
  split; [now rewrite Hfs2|]. split; [|apply as_ProfileContext_context_json].
  rewrite (readContext_content w2 (JSON_stringify_2 (context_props c2)) (context_json c2)).
  - reflexivity.
  - now rewrite Hfs2.
  - rewrite context_json_members. apply JSON_parse_stringify.
Qed.

Lemma last_write_wins_witness :
  let w := {| fs := {| dir_exists := false; file := NoFile; writable := true |};
              remote := sample_remote sample_listing (ok_response JNull);
              calls := []; log := []; clock := fun _ => js "t"; ticks := 0;
              apiUrl := js "https://ppcgpt.getppcprophet.com";
              apiUrl_valid := true |} in
  exists w1 w2,
    writeContext awkward_context w = (Returns tt, w1)
    /\ writeContext (context_of profile_b2 (js "t")) w1 = (Returns tt, w2)
    /\ dir_exists (fs w2) = true
    /\ readContext w2 = (Returns (Some (context_json (context_of profile_b2 (js "t")))), w2)
    /\ as_ProfileContext (context_json (context_of profile_b2 (js "t")))
       = Some (context_of profile_b2 (js "t")).
Proof.
  intros w.
  exact (last_write_wins awkward_context (context_of profile_b2 (js "t")) w eq_refl).
Defined.

(** A context file that holds more members than the five of a context is
    read all the same, and the five are found in it: of a member given twice
    the later one counts. *)
Example readContext_tolerates_more_members :
  let t := js "{'profileId':'old','v':2,'profileId':'b2','profileNumber':2,'profileName':'A','region':'CA','setAt':'t','extra':[1,{}]}" // 39 ~> 34 in
  let w := sample_world (Content t) sample_listing (ok_response JNull) in
  match fst (readContext w) with
  | Returns (Some v) => as_ProfileContext v
  | _ => None
  end = Some {| profileId := js "b2"; profileNumber := 2; profileName := js "A";
                ctx_region := js "CA"; setAt := js "t" |}.
Proof. reflexivity. Qed.

(* ------------------------------------------------------------------ *)
(** ** [set_current_profile], further *)


Lemma fetches_listing_fs w L w' : fetches_listing w L w' -> fs w' = fs w.
Proof. intros (resp & d & Hget & _). now apply api_get_fs in Hget. Qed.

(** A profile that is activated and ready is adopted: the tool answers with
    the success text, and on a file system that accepts the write the next
    read returns the context of that profile, its [id], [number], [name] and
    [region], stamped with the time of the call. *)
Theorem set_current_profile_ready
    (render : Tool -> Args -> json -> Result jsstring) (args : Args)
    (w w1 w2 : World) (r : Resolved) (L : list McpProfile) (p : McpProfile) :
  resolveProfileId (arg args (js "profile_id")) w = (Returns (Some r), w1) ->
  fetches_listing w1 L w2 ->
  find (fun q => jsstring_eqb (id q) (resolved_id r)) L = Some p ->
  mcp_activated p = true ->
  status_is_ready (mcp_data_status p) = true ->
  writable (fs w) = true ->
  exists w3,
    call_tool render (js "set_current_profile") args w
    = (Returns (text_result (context_set_text p)), w3)
    /\ is_success_text (context_set_text p) = true
    /\ readContext w3
       = (Returns (Some (context_json (context_of p (clock w2 (ticks w2))))), w3).
Proof.
  intros Hres Hl Hf Hact Hready Hw.
  rewrite (set_current_profile_reaches render args w w1 w2 r L Hres Hl).
  unfold try_catch. rewrite Hf, Hact, Hready. cbn [negb].
  unfold bind at 1. unfold now_iso.
  set (t0 := clock w2 (ticks w2)). set (w2' := set_ticks (S (ticks w2)) w2).
  assert (Hw2 : writable (fs w2') = true).
  { change (fs w2') with (fs w2). rewrite (fetches_listing_fs _ _ _ Hl).
    apply resolveProfileId_fs in Hres. now rewrite Hres. }
  destruct (writeContext_writable (context_of p t0) w2' Hw2) as (w3 & Hwrite & Hfs).
  exists w3. unfold bind.
  change {| profileId := id p; profileNumber := number p; profileName := name p;
            ctx_region := region p; setAt := t0 |} with (context_of p t0).
  rewrite Hwrite. split; [reflexivity|]. split; [reflexivity|].
  rewrite (readContext_content w3 (JSON_stringify_2 (context_props (context_of p t0)))
             (context_json (context_of p t0))).
  - reflexivity.
  - now rewrite Hfs.
  - rewrite context_json_members. apply JSON_parse_stringify.
Qed.

Lemma set_current_profile_ready_witness :
  let w := sample_world (Content (js "{oops")) sample_listing (ok_response JNull) in
  let args := [(js "profile_id", VString (js "#2"))] in
  exists w3,
    call_tool no_render (js "set_current_profile") args w
    = (Returns (text_result (context_set_text profile_b2)), w3)
    /\ is_success_text (context_set_text profile_b2) = true
    /\ readContext w3
       = (Returns (Some (context_json
                           (context_of profile_b2 (js "2026-01-06T09:00:00.000Z")))), w3).
Proof.
  intros w args.
  refine (set_current_profile_ready no_render args w
            (snd (resolveProfileId (VString (js "#2")) w))
            (snd (api_get SMcpProfiles mcp_profiles_path []
                    (snd (resolveProfileId (VString (js "#2")) w))))
            (resolved_of profile_b2) sample_listing profile_b2
            eq_refl _ eq_refl eq_refl eq_refl eq_refl).
  eexists. eexists. repeat split.
Defined.

(** The success text does not wait for the write: when the file system
    refuses the context file, the tool still answers that the current profile
    is set, while the file system is what it was before the call and the
    failure is only logged. *)
Theorem set_current_profile_success_without_write
    (render : Tool -> Args -> json -> Result jsstring) (args : Args)
    (w w1 w2 : World) (r : Resolved) (L : list McpProfile) (p : McpProfile) :
  resolveProfileId (arg args (js "profile_id")) w = (Returns (Some r), w1) ->
  fetches_listing w1 L w2 ->
  find (fun q => jsstring_eqb (id q) (resolved_id r)) L = Some p ->
  mcp_activated p = true ->
  status_is_ready (mcp_data_status p) = true ->
  writable (fs w) = false ->
  exists w3 ts e,
    call_tool render (js "set_current_profile") args w
    = (Returns (text_result (context_set_text p)), w3)
    /\ fs w3 = fs w
    /\ log w3 = log w2 ++ [LogError ts (js "Failed to write context file") (Some e)].
Proof.
  intros Hres Hl Hf Hact Hready Hw.
  rewrite (set_current_profile_reaches render args w w1 w2 r L Hres Hl).
  unfold try_catch. rewrite Hf, Hact, Hready. cbn [negb].
  unfold bind at 1. unfold now_iso.
  set (t0 := clock w2 (ticks w2)). set (w2' := set_ticks (S (ticks w2)) w2).
  assert (Hfs2 : fs w2' = fs w).
  { change (fs w2') with (fs w2). rewrite (fetches_listing_fs _ _ _ Hl).
    now apply resolveProfileId_fs in Hres. }
  assert (Hw2 : writable (fs w2') = false) by now rewrite Hfs2.
  destruct (writeContext_unwritable (context_of p t0) w2' Hw2)
    as (w3 & e & Hwrite & Hfs & Hlog).
  exists w3, (clock w2' (ticks w2')), e. unfold bind.
  change {| profileId := id p; profileNumber := number p; profileName := name p;
            ctx_region := region p; setAt := t0 |} with (context_of p t0).
  rewrite Hwrite. split; [reflexivity|]. split; [congruence|exact Hlog].
Qed.

Lemma set_current_profile_success_without_write_witness :
  let w := {| fs := {| dir_exists := true; file := NoFile; writable := false |};
              remote := sample_remote sample_listing (ok_response JNull);
              calls := []; log := []; clock := fun _ => js "t"; ticks := 0;
              apiUrl := js "https://ppcgpt.getppcprophet.com";
              apiUrl_valid := true |} in
  let args := [(js "profile_id", VString (js "2"))] in
  let w2 := snd (api_get SMcpProfiles mcp_profiles_path []
                   (snd (resolveProfileId (VString (js "2")) w))) in
  exists w3 ts e,
    call_tool no_render (js "set_current_profile") args w
    = (Returns (text_result (context_set_text profile_b2)), w3)
    /\ fs w3 = fs w
    /\ log w3 = log w2 ++ [LogError ts (js "Failed to write context file") (Some e)].
Proof.
  intros w args w2.
  refine (set_current_profile_success_without_write no_render args w
            (snd (resolveProfileId (VString (js "2")) w)) w2
            (resolved_of profile_b2) sample_listing profile_b2
            eq_refl _ eq_refl eq_refl eq_refl eq_refl).
  eexists. eexists. repeat split.
Defined.



(* ------------------------------------------------------------------ *)
(** ** The dispatch, further *)

Lemma tool_of_name_tool_name t : tool_of_name (tool_name t) = Some t.
Proof. destruct t; reflexivity. Qed.

Lemma tool_of_name_sound nm t : tool_of_name nm = Some t -> nm = tool_name t.
Proof.
  unfold tool_of_name. intros H. apply find_some in H.
  destruct H as [_ H]. now apply jsstring_eqb_eq in H.
Qed.


(** *** Who writes the context file *)

Lemma keeps_fs_ret {A} (a : A) : keeps_fs (ret a).
Proof. intros w. reflexivity. Qed.

Lemma keeps_fs_bind {A B} (c : M A) (k : A -> M B) :
  keeps_fs c -> (forall a, keeps_fs (k a)) -> keeps_fs (bind c k).
Proof.
  intros Hc Hk w. unfold bind. specialize (Hc w).
  destruct (c w) as [[a|e] w1]; cbn [snd] in *.
  - now rewrite Hk.
  - exact Hc.
Qed.

Lemma keeps_fs_lift {A} (r : Result A) : keeps_fs (lift r).
Proof. intros w. reflexivity. Qed.

Lemma keeps_fs_api_get s e ps : keeps_fs (api_get s e ps).
Proof.
  intros w. destruct (api_get s e ps w) as [r w'] eqn:H.
  now apply api_get_fs in H.
Qed.

Lemma keeps_fs_request s r : keeps_fs (request s r).
Proof.
  intros w. destruct (request s r w) as [res w'] eqn:H.
  now apply request_fs in H.
Qed.

Lemma keeps_fs_resolve input : keeps_fs (resolveProfileId input).
Proof.
  intros w. destruct (resolveProfileId input w) as [r w'] eqn:H.
  now apply resolveProfileId_fs in H.
Qed.

Ltac fs_cases :=
  repeat first
    [ apply keeps_fs_ret
    | apply keeps_fs_lift
    | apply keeps_fs_api_get
    | apply keeps_fs_request
    | apply keeps_fs_resolve
    | apply keeps_fs_bind; [|intros ?]
    | match goal with
      | |- keeps_fs (match ?x with _ => _ end) => destruct x
      | |- keeps_fs (if ?b then _ else _) => destruct b
      end ].

Lemma case_body_keeps_fs render t args :
  t <> set_current_profile -> keeps_fs (case_body render t args).
Proof.
  intros Ht.
  destruct t; try congruence;
    unfold case_body, with_profile_by_number, render_or_error, message_or_error,
      api_patch, api_post;
    fs_cases.
Qed.

(** [set_current_profile] is the only tool that can change the context
    file: a call under any other name, known or not, and whatever it returns
    or catches, leaves the file system as it was. *)
Theorem only_set_current_profile_writes
    (render : Tool -> Args -> json -> Result jsstring)
    (nm : jsstring) (args : Args) (w : World) :
  nm <> js "set_current_profile" ->
  fs (snd (call_tool render nm args w)) = fs w.
Proof.
  intros Hnm. unfold call_tool, try_catch.
  destruct (tool_of_name nm) as [t|] eqn:Ht.
  - assert (Hne : t <> set_current_profile).
    { intros ->. apply tool_of_name_sound in Ht. contradiction. }
    pose proof (case_body_keeps_fs render t args Hne w) as H.
    destruct (case_body render t args w) as [[r|e] w1]; exact H.
  - reflexivity.
Qed.

Lemma only_set_current_profile_writes_witness :
  let w := sample_world (Content (js "{}")) sample_listing (ok_response JNull) in
  fs (snd (call_tool no_render (js "deactivate_mcp_profile")
             [(js "number", VNumber 2)] w)) = fs w.
Proof.
  intros w.
  refine (only_set_current_profile_writes no_render (js "deactivate_mcp_profile")
            [(js "number", VNumber 2)] w _).
  discriminate.
Defined.

(** *** Which tools only read the service *)

Lemma only_gets_refl w : only_gets w w.
Proof. exists []. split; [now rewrite app_nil_r|constructor]. Qed.

Lemma only_gets_trans w1 w2 w3 : only_gets w1 w2 -> only_gets w2 w3 -> only_gets w1 w3.
Proof.
  intros (l1 & E1 & F1) (l2 & E2 & F2). exists (l1 ++ l2). split.
  - now rewrite E2, E1, app_assoc.
  - now apply Forall_app.
Qed.

Lemma reads_only_ret {A} (a : A) : reads_only (ret a).
Proof. intros w. apply only_gets_refl. Qed.

Lemma reads_only_lift {A} (r : Result A) : reads_only (lift r).
Proof. intros w. apply only_gets_refl. Qed.

Lemma reads_only_bind {A B} (c : M A) (k : A -> M B) :
  reads_only c -> (forall a, reads_only (k a)) -> reads_only (bind c k).
Proof.
  intros Hc Hk w. unfold bind. specialize (Hc w).
  destruct (c w) as [[a|e] w1]; cbn [snd] in *.
  - eapply only_gets_trans; [exact Hc|apply Hk].
  - exact Hc.
Qed.

Lemma reads_only_api_get s e ps : reads_only (api_get s e ps).
Proof.
  intros w. unfold api_get. destruct (apiUrl_valid w).
  - match goal with
    | |- context [request s ?r w] =>
        destruct (request_calls s r w) as (resp & w' & Hreq & Hcalls);
        rewrite Hreq; cbn [snd];
        exists [r]; split; [exact Hcalls|]; repeat constructor
    end.
  - apply only_gets_refl.
Qed.

Lemma calls_unchanged_only_gets {A} (c : M A) :
  (forall w, calls (snd (c w)) = calls w) -> reads_only c.
Proof.
  intros H w. exists []. split; [now rewrite app_nil_r, H|constructor].
Qed.

Lemma reads_only_now_iso : reads_only now_iso.
Proof. now apply calls_unchanged_only_gets. Qed.

Lemma reads_only_writeContext c : reads_only (writeContext c).
Proof.
  apply calls_unchanged_only_gets. intros w.
  unfold writeContext, try_catch, bind, ensureContextDir, existsSync_dir, mkdirSync,
    writeFileSync, logInfo, logError, now_iso, ret.
  generalize (JSON_stringify_2 (context_props c)). intros t. cbn.
  destruct (dir_exists (fs w)) eqn:Hd; destruct (writable (fs w)) eqn:Hw; cbn;
    rewrite ?Hd, ?Hw; cbn; rewrite ?Hd, ?Hw; reflexivity.
Qed.

Lemma reads_only_resolve input : reads_only (resolveProfileId input).
Proof.
  unfold resolveProfileId. destruct (reference_number input); [|apply reads_only_ret].
  apply reads_only_bind; [apply reads_only_api_get|]. intros resp.
  destruct (failed resp); [apply reads_only_ret|].
  destruct (data resp) as [d|]; [|apply reads_only_ret].
  destruct (find _ (profiles d)); apply reads_only_ret.
Qed.

Ltac gets_cases :=
  repeat first
    [ apply reads_only_ret
    | apply reads_only_lift
    | apply reads_only_api_get
    | apply reads_only_resolve
    | apply reads_only_now_iso
    | apply reads_only_writeContext
    | apply reads_only_bind; [|intros ?]
    | match goal with
      | |- reads_only (match ?x with _ => _ end) => destruct x
      | |- reads_only (if ?b then _ else _) => destruct b
      end ].

Lemma case_body_reads_only render t args :
  is_lookup_tool t = true -> reads_only (case_body render t args).
Proof.
  intros Ht.
  destruct t; try discriminate;
    unfold case_body, with_profile_by_number, render_or_error;
    gets_cases.
Qed.

(** The eleven tools that list, get, search, check or set the current
    profile never send anything but GETs: whatever the arguments and the
    answers, no PATCH and no POST leaves the server during their calls. *)
Theorem lookup_tools_send_only_gets
    (render : Tool -> Args -> json -> Result jsstring)
    (t : Tool) (args : Args) (w : World) :
  is_lookup_tool t = true ->
  only_gets w (snd (call_tool render (tool_name t) args w)).
Proof.
  intros Ht. unfold call_tool, try_catch. rewrite tool_of_name_tool_name.
  pose proof (case_body_reads_only render t args Ht w) as H.
  destruct (case_body render t args w) as [[r|e] w1]; exact H.
Qed.

Lemma lookup_tools_send_only_gets_witness :
  let w := sample_world NoFile sample_listing (ok_response JNull) in
  only_gets w (snd (call_tool no_render (js "check_mcp_status")
                      [(js "number", VNumber 2)] w)).
Proof.
  intros w.
  exact (lookup_tools_send_only_gets no_render check_mcp_status
           [(js "number", VNumber 2)] w eq_refl).
Defined.

(* ------------------------------------------------------------------ *)
(** ** The tools addressed by number *)

Lemma request_frame s r w res w' :
  request s r w = (res, w') ->
  calls w' = calls w ++ [r] /\ apiUrl_valid w' = apiUrl_valid w /\ remote w' = remote w.
Proof.
  unfold request, bind, fetch_json, logError, request_url, now_iso, ret. cbn.
  destruct (remote w (calls w ++ [r]) s) as [msg|ok code st b]; cbn.
  - intros H. inversion H. repeat split.
  - destruct ok; cbn; intros H; inversion H; repeat split.
Qed.

Lemma fetches_listing_frame w L w' :
  fetches_listing w L w' ->
  calls w' = calls w ++ [listing_request] /\ apiUrl_valid w' = true.
Proof.
  intros (resp & d & Hget & _). unfold api_get in Hget.
  destruct (apiUrl_valid w) eqn:Hv; [|discriminate].
  apply request_frame in Hget. destruct Hget as (Hc & Hva & _).
  split; [exact Hc|congruence].
Qed.

Lemma by_number_reaches args tail k w w1 L :
  fetches_listing w L w1 ->
  with_profile_by_number args tail k w
  = match find (fun p => match arg args (js "number") with
                         | VNumber n => (number p =? n)%Z
                         | _ => false
                         end) L with
    | None => (Returns (text_result (js "Error: Profile #"
                                       ++ ToString (arg args (js "number"))
                                       ++ js " not found." ++ tail)), w1)
    | Some p => k p w1
    end.
Proof.
  intros (resp & d & Hget & Hs & Hd & HL).
  unfold with_profile_by_number, bind. rewrite Hget. unfold failed.
  rewrite Hs, Hd. cbn [negb orb data_truthy]. rewrite HL.
  destruct (find _ L); reflexivity.
Qed.

Lemma call_tool_case render t args w res w' :
  case_body render t args w = (Returns res, w') ->
  call_tool render (tool_name t) args w = (Returns res, w').
Proof.
  intros H. unfold call_tool, try_catch. now rewrite tool_of_name_tool_name, H.
Qed.

(** A number that the fresh listing does not have stops [activate_mcp_profile],
    [check_mcp_status] and [deactivate_mcp_profile] at the not-found text:
    the listing GET is the only request of the call, so nothing is activated,
    queried or deactivated. *)
Theorem by_number_tools_stop_at_unknown_number
    (render : Tool -> Args -> json -> Result jsstring) (args : Args)
    (w w1 : World) (L : list McpProfile) :
  fetches_listing w L w1 ->
  find (fun p => match arg args (js "number") with
                 | VNumber n => (number p =? n)%Z
                 | _ => false
                 end) L = None ->
  let not_found := js "Error: Profile #" ++ ToString (arg args (js "number"))
                   ++ js " not found." in
  calls w1 = calls w ++ [listing_request]
  /\ call_tool render (js "activate_mcp_profile") args w
     = (Returns (text_result
                   (not_found ++ js " Use list_profiles to see available profiles.")), w1)
  /\ call_tool render (js "check_mcp_status") args w
     = (Returns (text_result not_found), w1)
  /\ call_tool render (js "deactivate_mcp_profile") args w
     = (Returns (text_result not_found), w1).
Proof.
  intros Hl Hf not_found. split; [apply (fetches_listing_frame _ _ _ Hl)|].
  repeat split.
  - apply (call_tool_case render activate_mcp_profile). unfold case_body.
    rewrite (by_number_reaches _ _ _ w w1 L Hl), Hf. unfold not_found.
    now rewrite <- !app_assoc.
  - apply (call_tool_case render check_mcp_status). unfold case_body.
    rewrite (by_number_reaches _ _ _ w w1 L Hl), Hf. unfold not_found.
    now rewrite !app_nil_r.
  - apply (call_tool_case render deactivate_mcp_profile). unfold case_body.
    rewrite (by_number_reaches _ _ _ w w1 L Hl), Hf. unfold not_found.
    now rewrite !app_nil_r.
Qed.

Lemma by_number_tools_stop_at_unknown_number_witness :
  let w := sample_world NoFile sample_listing (ok_response JNull) in
  let w1 := snd (api_get SMcpProfiles mcp_profiles_path [] w) in
  let args := [(js "number", VNumber 8)] in
  calls w1 = calls w ++ [listing_request]
  /\ call_tool no_render (js "activate_mcp_profile") args w
     = (Returns (text_result
                   (js "Error: Profile #8 not found. Use list_profiles to see available profiles.")),
        w1)
  /\ call_tool no_render (js "check_mcp_status") args w
     = (Returns (text_result (js "Error: Profile #8 not found.")), w1)
  /\ call_tool no_render (js "deactivate_mcp_profile") args w
     = (Returns (text_result (js "Error: Profile #8 not found.")), w1).
Proof.
  intros w w1 args.
  exact (by_number_tools_stop_at_unknown_number no_render args w w1 sample_listing
           (sample_fetches_listing NoFile sample_listing (ok_response JNull)) eq_refl).
Defined.

Lemma find_never {A} (l : list A) : find (fun _ => false) l = None.
Proof. induction l; [reflexivity|assumption]. Qed.

(** The number is compared with [===]: an argument that is not a number, a
    string such as "2" or no argument at all, matches no profile, whatever
    the listing holds. The three tools end at the not-found text after the
    listing GET. *)
Theorem by_number_tools_want_a_number
    (render : Tool -> Args -> json -> Result jsstring) (args : Args)
    (w w1 : World) (L : list McpProfile) :
  (forall n, arg args (js "number") <> VNumber n) ->
  fetches_listing w L w1 ->
  let not_found := js "Error: Profile #" ++ ToString (arg args (js "number"))
                   ++ js " not found." in
  call_tool render (js "activate_mcp_profile") args w
  = (Returns (text_result
                (not_found ++ js " Use list_profiles to see available profiles.")), w1)
  /\ call_tool render (js "check_mcp_status") args w
     = (Returns (text_result not_found), w1)
  /\ call_tool render (js "deactivate_mcp_profile") args w
     = (Returns (text_result not_found), w1)
  /\ calls w1 = calls w ++ [listing_request].
Proof.
  intros Hn Hl not_found.
  assert (Hf : find (fun p : McpProfile =>
                       match arg args (js "number") with
                       | VNumber n => (number p =? n)%Z
                       | _ => false
                       end) L = None).
  { destruct (arg args (js "number")) as [|n|s] eqn:Ha.
    - apply find_never.
    - exfalso. now apply (Hn n).
    - apply find_never. }
  repeat split.
  - apply (call_tool_case render activate_mcp_profile). unfold case_body.
    rewrite (by_number_reaches _ _ _ w w1 L Hl), Hf. unfold not_found.
    now rewrite <- !app_assoc.
  - apply (call_tool_case render check_mcp_status). unfold case_body.
    rewrite (by_number_reaches _ _ _ w w1 L Hl), Hf. unfold not_found.
    now rewrite !app_nil_r.
  - apply (call_tool_case render deactivate_mcp_profile). unfold case_body.
    rewrite (by_number_reaches _ _ _ w w1 L Hl), Hf. unfold not_found.
    now rewrite !app_nil_r.
  - apply (fetches_listing_frame _ _ _ Hl).
Qed.

Lemma by_number_tools_want_a_number_witness :
  let w := sample_world NoFile sample_listing (ok_response JNull) in
  let w1 := snd (api_get SMcpProfiles mcp_profiles_path [] w) in
  let args := [(js "number", VString (js "2"))] in
  call_tool no_render (js "activate_mcp_profile") args w
  = (Returns (text_result
                (js "Error: Profile #2 not found. Use list_profiles to see available profiles.")),
     w1)
  /\ call_tool no_render (js "check_mcp_status") args w
     = (Returns (text_result (js "Error: Profile #2 not found.")), w1)
  /\ call_tool no_render (js "deactivate_mcp_profile") args w
     = (Returns (text_result (js "Error: Profile #2 not found.")), w1)
  /\ calls w1 = calls w ++ [listing_request].
Proof.
  intros w w1 args.
  refine (by_number_tools_want_a_number no_render args w w1 sample_listing _
            (sample_fetches_listing NoFile sample_listing (ok_response JNull))).
  intros n. discriminate.
Defined.

(** When the listing cannot be had, the four tools that start from it stop
    there: the text is "Error: " with the error of the answer, or "Failed to
    fetch profiles" when the answer has none, and no further request is
    sent. *)
Theorem listing_failure_stops_the_tool
    (render : Tool -> Args -> json -> Result jsstring) (t : Tool) (args : Args)
    (w w1 : World) (resp : ApiResponse McpProfilesResponse) :
  In t [list_mcp_profiles; activate_mcp_profile; check_mcp_status;
        deactivate_mcp_profile] ->
  api_get SMcpProfiles mcp_profiles_path [] w = (Returns resp, w1) ->
  failed (s := SMcpProfiles) resp = true ->
  call_tool render (tool_name t) args w
  = (Returns (text_result (js "Error: "
                             ++ or_default (error resp) (js "Failed to fetch profiles"))),
     w1).
Proof.
  intros Hin Hget Hfail. apply call_tool_case.
  cbn [In] in Hin.
  destruct Hin as [<-|[<-|[<-|[<-|[]]]]];
    unfold case_body, with_profile_by_number, bind; rewrite Hget, Hfail; reflexivity.
Qed.

Lemma listing_failure_stops_the_tool_witness :
  let w := {| fs := {| dir_exists := true; file := NoFile; writable := true |};
              remote := fun _ s => Http false 401 (js "Unauthorized")
                                        (failure (js "Invalid token"));
              calls := []; log := []; clock := fun _ => js "t"; ticks := 0;
              apiUrl := js "https://ppcgpt.getppcprophet.com";
              apiUrl_valid := true |} in
  call_tool no_render (js "deactivate_mcp_profile") [(js "number", VNumber 1)] w
  = (Returns (text_result (js "Error: Invalid token")),
     snd (api_get SMcpProfiles mcp_profiles_path [] w)).
Proof.
  intros w.
  refine (listing_failure_stops_the_tool no_render deactivate_mcp_profile
            [(js "number", VNumber 1)] w _ (failure (js "Invalid token")) _ eq_refl eq_refl).
  cbn. tauto.
Defined.





(* ------------------------------------------------------------------ *)
(** ** The update tools *)





(** With no [keyword_id] the PATCH still leaves, to a path spelled with
    "undefined". *)
Example update_without_identifier :
  let w := sample_world NoFile sample_listing (ok_response JNull) in
  map path (calls (snd (call_tool no_render (js "update_keyword_bid") [] w)))
  = [js "/v1/amazon/keywords/undefined/bid"].
Proof. reflexivity. Qed.

(* ------------------------------------------------------------------ *)
(** ** [list_mcp_profiles] *)

Lemma group_sizes (L : list McpProfile) :
  Forall (fun p => is_ready p = true -> mcp_activated p = true) L ->
  (List.length (filter is_ready L)
   + List.length (filter (fun p => mcp_activated p && negb (is_ready p)) L)
   + List.length (filter (fun p => negb (mcp_activated p)) L)
   = List.length L)%nat.
Proof.
  induction 1 as [|p L Hp _ IH]; [reflexivity|].
  cbn [filter List.length].
  destruct (is_ready p) eqn:Hr.
  - rewrite (Hp eq_refl). cbn [negb andb List.length]. lia.
  - destruct (mcp_activated p); cbn [negb andb List.length]; lia.
Qed.

(** The text of [list_mcp_profiles] on a listing that is not empty: the
    total, then the groups "Ready for Queries", "Importing Data" and "Not
    Activated". When every profile marked ready is activated, the three
    groups share out the listing: their sizes add up to the total. *)
Theorem list_mcp_profiles_groups
    (render : Tool -> Args -> json -> Result jsstring) (args : Args)
    (w w1 : World) (L : list McpProfile) :
  fetches_listing w L w1 ->
  L <> [] ->
  Forall (fun p => is_ready p = true -> mcp_activated p = true) L ->
  let ready := filter is_ready L in
  let importing := filter (fun p => mcp_activated p && negb (is_ready p)) L in
  let notActivated := filter (fun p => negb (mcp_activated p)) L in
  call_tool render (js "list_mcp_profiles") args w
  = (Returns (text_result
                (js "Found " ++ Number_toString (Z.of_nat (List.length L))
                 ++ js " profile(s):" ++ nl ++ nl
                 ++ profile_group (js "Ready for Queries") profile_line ready
                 ++ profile_group (js "Importing Data") importing_line importing
                 ++ profile_group (js "Not Activated") profile_line notActivated
                 ++ js "To activate: say 'activate #2' or similar." // 39 ~> 34)), w1)
  /\ (List.length ready + List.length importing + List.length notActivated
      = List.length L)%nat.
Proof.
  intros (resp & d & Hget & Hs & Hd & HL) Hne Hall ready importing notActivated.
  split; [|now apply group_sizes].
  apply (call_tool_case render list_mcp_profiles). unfold case_body, bind.
  rewrite Hget. unfold failed. rewrite Hs, Hd. cbn [negb orb data_truthy].
  rewrite HL. destruct L as [|p0 L0]; [contradiction|]. reflexivity.
Qed.

Lemma list_mcp_profiles_groups_witness :
  let w := sample_world NoFile sample_listing (ok_response JNull) in
  let w1 := snd (api_get SMcpProfiles mcp_profiles_path [] w) in
  let ready := filter is_ready sample_listing in
  let importing := filter (fun p => mcp_activated p && negb (is_ready p)) sample_listing in
  let notActivated := filter (fun p => negb (mcp_activated p)) sample_listing in
  call_tool no_render (js "list_mcp_profiles") [] w
  = (Returns (text_result
                (js "Found " ++ Number_toString (Z.of_nat (List.length sample_listing))
                 ++ js " profile(s):" ++ nl ++ nl
                 ++ profile_group (js "Ready for Queries") profile_line ready
                 ++ profile_group (js "Importing Data") importing_line importing
                 ++ profile_group (js "Not Activated") profile_line notActivated
                 ++ js "To activate: say 'activate #2' or similar." // 39 ~> 34)), w1)
  /\ (List.length ready + List.length importing + List.length notActivated
      = List.length sample_listing)%nat.
Proof.
  intros w w1.
  refine (list_mcp_profiles_groups no_render [] w w1 sample_listing
            (sample_fetches_listing NoFile sample_listing (ok_response JNull)) _ _).
  - discriminate.
  - repeat constructor; discriminate.
Defined.

(** A profile marked ready but not activated is shown twice, under "Ready
    for Queries" and under "Not Activated". *)
Example ready_but_not_activated_is_listed_twice :
  let odd := {| number := 4; id := js "d4"; name := js "Odd"; region := js "DE";
                mcp_activated := false; mcp_data_status := Val (js "ready");
                is_ready := true; estimated_minutes := Absent |} in
  let w := sample_world NoFile [odd] (ok_response JNull) in
  fst (call_tool no_render (js "list_mcp_profiles") [] w)
  = Returns (text_result
               (js "Found 1 profile(s):" ++ nl ++ nl
                ++ js "**Ready for Queries (1):**" ++ nl ++ js "#4. Odd (DE)" ++ nl ++ nl
                ++ js "**Not Activated (1):**" ++ nl ++ js "#4. Odd (DE)" ++ nl ++ nl
                ++ js "To activate: say 'activate #2' or similar." // 39 ~> 34)).
Proof. reflexivity. Qed.

(* ------------------------------------------------------------------ *)
(** ** tools/reports.ts and tools/campaigns.ts: the not-ready answer *)

Lemma not_ready_text_cases (resp : ApiResponse json) :
  ToolsReports.not_ready_text resp
  = js "**Data Not Yet Available**" ++ nl ++ nl
    ++ match message resp with Some m => m | None => js "undefined" end ++ nl ++ nl
    ++ match resp_estimated_minutes resp with
       | Val n => if (n =? 0)%Z then js "Please try again later."
                  else js "Estimated time: ~" ++ Number_toString n ++ js " minutes."
       | _ => js "Please try again later."
       end
  /\ is_error_text (ToolsReports.not_ready_text resp) = false.
Proof.
  split; [|reflexivity].
  unfold ToolsReports.not_ready_text, truthy_minutes, option_string_text.
  destruct (resp_estimated_minutes resp) as [| |n]; try reflexivity.
  destruct (n =? 0)%Z; reflexivity.
Qed.

(** [get_performance] of [tools/reports.ts] looks at [data_not_ready] before
    anything else: an answer so marked is rendered under "Data Not Yet
    Available" with its message, then the estimate when it has one that is
    not 0 and "Please try again later." otherwise; the text is no error
    text, and the rendering of performance data is not reached. *)
Theorem reports_get_performance_not_ready
    (render : Tool -> Args -> json -> Result jsstring) (args : Args)
    (w w' : World) (resp : ApiResponse json) :
  api_get SJson (js "/v1/amazon/reports/performance")
    [(js "profile_id", arg args (js "profile_id"));
     (js "start_date", arg args (js "start_date"));
     (js "end_date", arg args (js "end_date"))] w = (Returns resp, w') ->
  data_not_ready resp = true ->
  exists t,
    ToolsReports.get_performance_tool render args w = (Returns (text_result t), w')
    /\ t = js "**Data Not Yet Available**" ++ nl ++ nl
           ++ match message resp with Some m => m | None => js "undefined" end
           ++ nl ++ nl
           ++ match resp_estimated_minutes resp with
              | Val n => if (n =? 0)%Z then js "Please try again later."
                         else js "Estimated time: ~" ++ Number_toString n
                              ++ js " minutes."
              | _ => js "Please try again later."
              end
    /\ is_error_text t = false.
Proof.
  intros Hget Hnr. exists (ToolsReports.not_ready_text resp).
  split; [|apply not_ready_text_cases].
  unfold ToolsReports.get_performance_tool, bind. rewrite Hget.
  cbn [data_of] in *. now rewrite Hnr.
Qed.

Lemma reports_get_performance_not_ready_witness :
  let w := sample_world NoFile sample_listing
             (not_ready_response (js "Data import in progress") (Val 0%Z)) in
  let args := [(js "profile_id", VString (js "b2"))] in
  exists t,
    ToolsReports.get_performance_tool no_render args w
    = (Returns (text_result t),
       snd (api_get SJson (js "/v1/amazon/reports/performance")
              [(js "profile_id", VString (js "b2")); (js "start_date", VUndefined);
               (js "end_date", VUndefined)] w))
    /\ t = js "**Data Not Yet Available**" ++ nl ++ nl
           ++ js "Data import in progress" ++ nl ++ nl ++ js "Please try again later."
    /\ is_error_text t = false.
Proof.
  intros w args.
  exact (reports_get_performance_not_ready no_render args w _
           (not_ready_response (js "Data import in progress") (Val 0%Z))
           eq_refl eq_refl).
Defined.

(** [search_campaigns] of [tools/campaigns.ts] does the same with an answer
    marked [data_not_ready]. *)
Theorem campaigns_search_not_ready
    (render : Tool -> Args -> json -> Result jsstring) (args : Args)
    (w w' : World) (resp : ApiResponse json) :
  api_get SJson (js "/v1/amazon/campaigns/search")
    [(js "profile_id", arg args (js "profile_id"));
     (js "q", arg args (js "query"))] w = (Returns resp, w') ->
  data_not_ready resp = true ->
  exists t,
    ToolsCampaigns.search_campaigns_tool render args w = (Returns (text_result t), w')
    /\ t = js "**Data Not Yet Available**" ++ nl ++ nl
           ++ match message resp with Some m => m | None => js "undefined" end
           ++ nl ++ nl
           ++ match resp_estimated_minutes resp with
              | Val n => if (n =? 0)%Z then js "Please try again later."
                         else js "Estimated time: ~" ++ Number_toString n
                              ++ js " minutes."
              | _ => js "Please try again later."
              end
    /\ is_error_text t = false.
Proof.
  intros Hget Hnr. exists (ToolsReports.not_ready_text resp).
  split; [|apply not_ready_text_cases].
  unfold ToolsCampaigns.search_campaigns_tool, bind. rewrite Hget.
  cbn [data_of] in *. now rewrite Hnr.
Qed.

Lemma campaigns_search_not_ready_witness :
  let w := sample_world NoFile sample_listing
             (not_ready_response (js "Data import in progress") (Val 7%Z)) in
  let args := [(js "profile_id", VString (js "b2")); (js "query", VString (js "brand"))] in
  exists t,
    ToolsCampaigns.search_campaigns_tool no_render args w
    = (Returns (text_result t),
       snd (api_get SJson (js "/v1/amazon/campaigns/search")
              [(js "profile_id", VString (js "b2")); (js "q", VString (js "brand"))] w))
    /\ t = js "**Data Not Yet Available**" ++ nl ++ nl
           ++ js "Data import in progress" ++ nl ++ nl
           ++ js "Estimated time: ~" ++ Number_toString 7 ++ js " minutes."
    /\ is_error_text t = false.
Proof.
  intros w args.
  exact (campaigns_search_not_ready no_render args w _
           (not_ready_response (js "Data import in progress") (Val 7%Z))
           eq_refl eq_refl).
Defined.

(* ------------------------------------------------------------------ *)
(** ** config.ts *)

Lemma strip_trailing_slash_added s : strip_trailing_slash (s ++ [47]) = s.
Proof.
  induction s as [|c s IH]; [reflexivity|].
  cbn [app strip_trailing_slash]. rewrite IH.
  destruct s; reflexivity.
Qed.

Lemma strip_trailing_slash_none s c :
  c <> 47 -> strip_trailing_slash (s ++ [c]) = s ++ [c].
Proof.
  intros Hc. induction s as [|d s IH].
  - cbn. apply N.eqb_neq in Hc. now rewrite Hc.
  - cbn [app strip_trailing_slash]. rewrite IH. destruct s; reflexivity.
Qed.

(** Without [PPC_PROPHET_API_KEY], unset or empty, [loadConfig] logs its two
    lines and exits with code 1; no other variable of the environment, the
    [PPC_PROPHET_API_TOKEN] of the README included, stands in for it. *)
Theorem loadConfig_needs_the_key (env : Env) (w : World) :
  nonempty (getenv env (js "PPC_PROPHET_API_KEY")) = None ->
  exists w',
    loadConfig env w = (Returns (Exit 1), w')
    /\ log w'
       = log w
         ++ [LogError (clock w (ticks w))
               (js "PPC_PROPHET_API_KEY environment variable is required") None;
             LogError (clock w (S (ticks w)))
               (js "Get your API token from https://ppcgpt.com (Settings > API Access)")
               None]
    /\ fs w' = fs w /\ calls w' = calls w.
Proof.
  intros Hk. unfold loadConfig. rewrite Hk.
  unfold bind, logError, now_iso, ret. cbn. eexists. repeat split.
  now rewrite <- app_assoc.
Qed.

Lemma loadConfig_needs_the_key_witness :
  let env := [(js "PPC_PROPHET_API_TOKEN", js "secret");
              (js "PPC_PROPHET_API_URL", js "https://ppcgpt.getppcprophet.com")] in
  let w := sample_world NoFile sample_listing (ok_response JNull) in
  exists w',
    loadConfig env w = (Returns (Exit 1), w')
    /\ log w'
       = log w
         ++ [LogError (clock w (ticks w))
               (js "PPC_PROPHET_API_KEY environment variable is required") None;
             LogError (clock w (S (ticks w)))
               (js "Get your API token from https://ppcgpt.com (Settings > API Access)")
               None]
    /\ fs w' = fs w /\ calls w' = calls w.
Proof.
  intros env w. exact (loadConfig_needs_the_key env w eq_refl).
Defined.

(** With a key, [loadConfig] returns a configuration without logging, and
    one "/" at the end of the URL is dropped: a URL and the same URL followed
    by "/" give one and the same base. *)
Theorem loadConfig_trailing_slash (env1 env2 : Env) (key1 key2 u : jsstring)
    (c : codeunit) (w : World) :
  nonempty (getenv env1 (js "PPC_PROPHET_API_KEY")) = Some key1 ->
  nonempty (getenv env2 (js "PPC_PROPHET_API_KEY")) = Some key2 ->
  c <> 47 ->
  getenv env1 (js "PPC_PROPHET_API_URL") = Some (u ++ [c]) ->
  getenv env2 (js "PPC_PROPHET_API_URL") = Some ((u ++ [c]) ++ [47]) ->
  exists cfg1 cfg2,
    loadConfig env1 w = (Returns (Loaded cfg1), w)
    /\ loadConfig env2 w = (Returns (Loaded cfg2), w)
    /\ cfg_apiUrl cfg1 = u ++ [c]
    /\ cfg_apiUrl cfg2 = u ++ [c]
    /\ cfg_apiKey cfg1 = key1 /\ cfg_apiKey cfg2 = key2.
Proof.
  intros Hk1 Hk2 Hc Hu1 Hu2. unfold loadConfig. rewrite Hk1, Hk2, Hu1, Hu2.
  eexists. eexists. split; [reflexivity|]. split; [reflexivity|].
  cbn [cfg_apiUrl cfg_apiKey].
  assert (E1 : or_default (Some (u ++ [c])) DEFAULT_API_URL = u ++ [c]).
  { destruct u; reflexivity. }
  assert (E2 : or_default (Some ((u ++ [c]) ++ [47])) DEFAULT_API_URL
               = (u ++ [c]) ++ [47]).
  { destruct u; reflexivity. }
  rewrite E1, E2, strip_trailing_slash_added.
  split; [now apply strip_trailing_slash_none|repeat split].
Qed.

Lemma loadConfig_trailing_slash_witness :
  let env1 := [(js "PPC_PROPHET_API_KEY", js "secret");
               (js "PPC_PROPHET_API_URL", js "http://localhost:8000")] in
  let env2 := [(js "PPC_PROPHET_API_URL", js "http://localhost:8000/");
               (js "PPC_PROPHET_API_KEY", js "other")] in
  let w := sample_world NoFile sample_listing (ok_response JNull) in
  exists cfg1 cfg2,
    loadConfig env1 w = (Returns (Loaded cfg1), w)
    /\ loadConfig env2 w = (Returns (Loaded cfg2), w)
    /\ cfg_apiUrl cfg1 = js "http://localhost:8000"
    /\ cfg_apiUrl cfg2 = js "http://localhost:8000"
    /\ cfg_apiKey cfg1 = js "secret" /\ cfg_apiKey cfg2 = js "other".
Proof.
  intros env1 env2 w.
  refine (loadConfig_trailing_slash env1 env2 (js "secret") (js "other")
            (js "http://localhost:800") 48 w eq_refl eq_refl _ eq_refl eq_refl).
  discriminate.
Defined.

(* ------------------------------------------------------------------ *)
(** ** Which tools resolve their [profile_id] *)

Lemma render_or_error_world render t args (response : ApiResponse json) fb w :
  snd (render_or_error render t args response fb w) = w.
Proof.
  unfold render_or_error. destruct (failed _); [reflexivity|].
  destruct (data response) as [d|]; [|reflexivity].
  unfold bind, lift, ret. destruct (render t args d); reflexivity.
Qed.

Lemma call_tool_world render t args w :
  snd (call_tool render (tool_name t) args w) = snd (case_body render t args w).
Proof.
  unfold call_tool, try_catch. rewrite tool_of_name_tool_name.
  destruct (case_body render t args w) as [[r|e] w1]; reflexivity.
Qed.

Lemma get_then_render_calls render t args endpoint params fb w :
  apiUrl_valid w = true ->
  calls (snd (bind (api_get SJson endpoint params)
                   (fun response => render_or_error render t args response fb) w))
  = calls w ++ [ {| method := GET; path := endpoint;
                    query := map (fun kv => (fst kv, ToString (snd kv)))
                                 (filter keep_param params);
                    body := None |} ].
Proof.
  intros Hv. unfold bind, api_get. rewrite Hv.
  match goal with
  | |- context [request SJson ?r w] =>
      destruct (request_calls SJson r w) as (resp & w' & Hreq & Hcalls); rewrite Hreq
  end.
  now rewrite render_or_error_world.
Qed.

(** [list_campaigns] asks for the campaigns of the identifier the resolver
    returned, not of the reference it was given: the request that follows the
    resolution is a GET of [/v1/amazon/campaigns] whose first parameter is
    [profile_id] with the resolved identifier. *)
Theorem list_campaigns_sends_the_resolved_identifier
    (render : Tool -> Args -> json -> Result jsstring) (args : Args)
    (w w1 : World) (r : Resolved) (c : codeunit) (t : jsstring) :
  resolveProfileId (arg args (js "profile_id")) w = (Returns (Some r), w1) ->
  resolved_id r = c :: t ->
  apiUrl_valid w1 = true ->
  exists q,
    calls (snd (call_tool render (js "list_campaigns") args w))
    = calls w1 ++ [ {| method := GET; path := js "/v1/amazon/campaigns";
                       query := (js "profile_id", c :: t) :: q; body := None |} ].
Proof.
  intros Hres Hid Hv.
  rewrite (call_tool_world render list_campaigns). unfold case_body.
  unfold bind at 1. rewrite Hres.
  rewrite (get_then_render_calls render list_campaigns args _ _ _ w1 Hv).
  rewrite Hid. cbn [app filter keep_param snd fst map ToString].
  eexists. reflexivity.
Qed.

Lemma list_campaigns_sends_the_resolved_identifier_witness :
  let w := sample_world NoFile sample_listing (ok_response JNull) in
  let args := [(js "profile_id", VString (js "#2")); (js "status", VString (js "enabled"))] in
  let w1 := snd (resolveProfileId (VString (js "#2")) w) in
  exists q,
    calls (snd (call_tool no_render (js "list_campaigns") args w))
    = calls w1 ++ [ {| method := GET; path := js "/v1/amazon/campaigns";
                       query := (js "profile_id", js "b2") :: q; body := None |} ].
Proof.
  intros w args w1.
  exact (list_campaigns_sends_the_resolved_identifier no_render args w w1
           (resolved_of profile_b2) 98 (js "2") eq_refl eq_refl eq_refl).
Defined.

(** The other tools that take a [profile_id] do not resolve it:
    [get_campaign], [search_campaigns], [list_keywords], [get_performance]
    and [get_campaign_performance] send one GET and no other request, with
    the [profile_id] exactly as it was given, a number such as "2" or "#2"
    included. *)
Theorem lookup_tools_send_profile_id_as_given
    (render : Tool -> Args -> json -> Result jsstring) (t : Tool) (args : Args)
    (c : codeunit) (s : jsstring) (w : World) :
  In t [get_campaign; search_campaigns; list_keywords; get_performance;
        get_campaign_performance] ->
  arg args (js "profile_id") = VString (c :: s) ->
  apiUrl_valid w = true ->
  exists r,
    calls (snd (call_tool render (tool_name t) args w)) = calls w ++ [r]
    /\ method r = GET
    /\ In (js "profile_id", c :: s) (query r).
Proof.
  intros Hin Hp Hv. cbn [In] in Hin.
  destruct Hin as [<-|[<-|[<-|[<-|[<-|[]]]]]];
    rewrite call_tool_world; unfold case_body;
    rewrite get_then_render_calls by exact Hv;
    eexists; (split; [reflexivity|]); (split; [reflexivity|]);
    rewrite Hp; cbn [app filter keep_param snd fst map ToString query]; left; reflexivity.
Qed.

Lemma lookup_tools_send_profile_id_as_given_witness :
  let w := sample_world NoFile sample_listing (ok_response JNull) in
  exists r,
    calls (snd (call_tool no_render (js "get_performance")
                  [(js "profile_id", VString (js "#2"))] w)) = calls w ++ [r]
    /\ method r = GET
    /\ In (js "profile_id", js "#2") (query r).
Proof.
  intros w.
  refine (lookup_tools_send_profile_id_as_given no_render get_performance
            [(js "profile_id", VString (js "#2"))] 35 (js "2") w _ eq_refl eq_refl).
  cbn. tauto.
Defined.
